(** * Product API: validation pipeline, persistence, rate limiter and
      authentication tiers

    A shallow embedding of the FastAPI application under [app/]:
    - [app/schemas/product.py]: the pydantic models and their validators;
    - [app/models/product.py]: the [products] table;
    - [app/services/validation_service.py], [app/services/product_service.py];
    - [app/api/v1/endpoints/products.py]: the [create] and [validate] handlers;
    - [app/api/deps.py]: the authentication tiers and the rate limiter.

    Conventions.  A Python [str] whose characters matter (it is measured,
    stripped, case-mapped or matched against a pattern) is a list of Unicode
    code points ([list N]); texts that are only built and compared (messages,
    dictionary keys, tokens, header values) are [string]s.  A [Decimal] is a
    finite decimal, a [float] is a binary64 number ([PrimFloat.float]).  The
    Unicode tables behind [str.strip], [str.lower], [str.title] and [int], and
    the two third-party validators ([HttpUrl], [jose.jwt.decode]), are not
    part of the repository: they are the fields of the classes [Builtins] and
    [Libraries].  Neither is the database behind [SessionLocal]: what its
    columns hold is the class [Backend].  The schema module is written
    against pydantic 1.x
    ([validator], [root_validator], [Field(regex=...)], [.dict()]), whose
    validation order is the one followed here. *)

From Stdlib Require Import ZArith List String Ascii Bool Lia PrimFloat.
From stdpp Require Import base option list gmap strings pretty sorting.

Local Open Scope Z_scope.

(** ** Python values *)

Abbreviation str := (list N).

(** An ASCII literal as a [str]. *)
Definition lit (s : string) : str :=
  (fun a => N.of_nat (nat_of_ascii a)) <$> list_ascii_of_string s.

(** [len(s)] *)
Definition len {A} (s : list A) : Z := Z.of_nat (length s).

Class Builtins := {
  (** [c.isspace()] for one character: what [str.strip()] removes *)
  isspace : N -> bool;
  (** [s.lower()] *)
  str_lower : str -> str;
  (** [s.title()] *)
  str_title : str -> str;
  (** [int(s)]; [None] stands for [ValueError] *)
  int_of_str : str -> option Z
}.

Class Libraries := {
  (** pydantic's [HttpUrl]: the validated URL, or [None] when it is refused *)
  HttpUrl : str -> option str;
  (** a validated URL validates again, to itself *)
  HttpUrl_validated : forall u u', HttpUrl u = Some u' -> HttpUrl u' = Some u';
  (** [jose.jwt.decode(token, key, algorithms)]: the claims, or [None] for
      [JWTError]; a [sub] claim that is present is a string *)
  jwt_decode : string -> string -> list string -> option (gmap string str)
}.

Fixpoint lstrip_with (sp : N -> bool) (s : str) : str :=
  match s with
  | c :: s' => if sp c then lstrip_with sp s' else s
  | [] => []
  end.

(** [s.strip()] *)
Definition str_strip `{Builtins} (s : str) : str :=
  rev (lstrip_with isspace (rev (lstrip_with isspace s))).

(** [decimal.Decimal], finite: [coefficient * 10 ^ exponent]. *)
Record Decimal := { coefficient : Z; exponent : Z }.

(** [d > n] for an [int] [n]; the comparison is exact. *)
Definition Decimal_gt (d : Decimal) (n : Z) : bool :=
  if 0 <=? exponent d
  then n <? coefficient d * 10 ^ exponent d
  else n * 10 ^ (- exponent d) <? coefficient d.

(** [d] written with [scale] places after the point, the same number when
    [d] has no more places than that. *)
Definition Decimal_rescale (scale : Z) (d : Decimal) : Decimal :=
  {| coefficient := coefficient d * 10 ^ (exponent d + scale); exponent := - scale |}.

(** [len(d.as_tuple().digits)] *)
Definition Decimal_digits (d : Decimal) : Z :=
  len (list_ascii_of_string (pretty (Z.abs_N (coefficient d)))).

(** Truth value of a [float]: everything but zero. *)
Definition float_truthy (x : float) : bool := negb (PrimFloat.eqb x 0%float).

(** ** [app/schemas/product.py] *)

(** What a failed validation reports: the declarative constraint of a
    [Field(...)] that was violated, or the [ValueError] a validator raised. *)
Inductive ErrorKind :=
| Constraint (name : string)
| ValueError (msg : string).

(** An error with its location, outermost field first. *)
Definition ErrorWrapper : Type := list string * ErrorKind.

(** The outcome of validating one field (or one model): its errors, or the
    validated value. *)
Definition Validated (A : Type) : Type := list ErrorWrapper + A.

Definition fail {A} (loc : string) (e : ErrorKind) : Validated A := inl [([loc], e)].

Definition errors_of {A} (v : Validated A) : list ErrorWrapper :=
  match v with inl es => es | inr _ => [] end.

Definition value_of {A} (v : Validated A) : option A :=
  match v with inl _ => None | inr a => Some a end.

(** Errors of a nested model or list item, reported under [loc]. *)
Definition under {A} (loc : string) (v : Validated A) : Validated A :=
  match v with
  | inl es => inl ((fun e => (loc :: fst e, snd e)) <$> es)
  | inr a => inr a
  end.

(** A class validator applied to a value that passed the field's own checks. *)
Definition then_validator {A} (loc : string) (v : Validated A)
    (f : A -> ErrorKind + A) : Validated A :=
  match v with
  | inl es => inl es
  | inr a => match f a with inl e => fail loc e | inr a' => inr a' end
  end.

(** [Field(min_length=lo, max_length=hi)] on a [str]. *)
Definition constr_length (loc : string) (lo : option Z) (hi : Z) (v : str) : Validated str :=
  if match lo with Some l => len v <? l | None => false end
  then fail loc (Constraint "min_length")
  else if hi <? len v then fail loc (Constraint "max_length")
  else inr v.

(** The subject of a pattern that ends in [$]: [re.match] lets [$] match
    before a final newline as well as at the very end. *)
Definition before_dollar (v : str) : str :=
  match last v with
  | Some 10%N => removelast v
  | _ => v
  end.

Definition in_range (lo hi c : N) : bool := ((lo <=? c) && (c <=? hi))%N.
Definition is_upper_ascii : N -> bool := in_range 65 90.
Definition is_digit_ascii : N -> bool := in_range 48 57.

(** [regex=r"^[A-Z]{3}$"] *)
Definition currency_regex (v : str) : bool :=
  let b := before_dollar v in
  (len b =? 3) && forallb is_upper_ascii b.

(** [regex=r"^[A-Z0-9\-]{5,20}$"] *)
Definition sku_regex (v : str) : bool :=
  let b := before_dollar v in
  (5 <=? len b) && (len b <=? 20)
  && forallb (fun c => is_upper_ascii c || is_digit_ascii c || (c =? 45)%N) b.

(** *** [ImageSchema] *)

Record ImageSchema := { url : str; alt_text : str }.

Definition validate_ImageSchema `{Libraries} (obj : ImageSchema) : Validated ImageSchema :=
  let v_url : Validated str :=
    match HttpUrl (url obj) with
    | Some u => inr u
    | None => fail "url" (Constraint "url")
    end in
  let v_alt := constr_length "alt_text" (Some 1) 100 (alt_text obj) in
  match v_url, v_alt with
  | inr u, inr a => inr {| url := u; alt_text := a |}
  | _, _ => inl (errors_of v_url ++ errors_of v_alt)
  end.

(** *** [PriceSchema] *)

Record PriceSchema := { amount : Decimal; currency : str }.

(** [Field(..., gt=0, max_digits=10, decimal_places=2)] *)
Definition amount_field (v : Decimal) : Validated Decimal :=
  let n := Decimal_digits v in
  let e := exponent v in
  let digits := if 0 <=? e then n + e else if n <? - e then - e else n in
  let decimals := if 0 <=? e then 0 else - e in
  if negb (Decimal_gt v 0) then fail "amount" (Constraint "gt")
  else if 10 <? digits then fail "amount" (Constraint "max_digits")
  else if 2 <? decimals then fail "amount" (Constraint "decimal_places")
  else if 10 - 2 <? digits - decimals then fail "amount" (Constraint "whole_digits")
  else inr v.

Definition valid_currencies : list str :=
  [lit "USD"; lit "EUR"; lit "COP"; lit "GBP"; lit "JPY"; lit "CAD"; lit "AUD"].

(** The message also quotes [v] and the joined set, whose iteration order is
    unspecified; only its fixed part is kept. *)
Definition validate_currency_code (v : str) : ErrorKind + str :=
  if bool_decide (v ∈ valid_currencies) then inr v
  else inl (ValueError "Moneda no válida").

Definition currency_field (v : str) : Validated str :=
  then_validator "currency"
    (if currency_regex v then inr v else fail "currency" (Constraint "regex"))
    validate_currency_code.

Definition validate_PriceSchema (obj : PriceSchema) : Validated PriceSchema :=
  let v_amount := amount_field (amount obj) in
  let v_currency := currency_field (currency obj) in
  match v_amount, v_currency with
  | inr a, inr c => inr {| amount := a; currency := c |}
  | _, _ => inl (errors_of v_amount ++ errors_of v_currency)
  end.

(** *** [DimensionsSchema] *)

Record DimensionsSchema := { width : float; height : float; depth : float }.

(** [Field(..., gt=0)] on a [float] *)
Definition dimension_field (loc : string) (v : float) : Validated float :=
  if PrimFloat.ltb 0%float v then inr v else fail loc (Constraint "gt").

(** The root validator of [DimensionsSchema], over the fields that passed
    (in declaration order): the first one above 500 raises. *)
Fixpoint validate_dimensions (values : list (string * float)) : option ErrorKind :=
  match values with
  | [] => None
  | (dim_name, dim_value) :: rest =>
      if float_truthy dim_value && PrimFloat.ltb 500%float dim_value
      then Some (ValueError (dim_name +:+ " no puede exceder 500cm"))
      else validate_dimensions rest
  end.

Definition passed {A} (loc : string) (v : Validated A) : list (string * A) :=
  match v with inl _ => [] | inr a => [(loc, a)] end.

Definition root_error (e : option ErrorKind) : list ErrorWrapper :=
  match e with Some k => [(["__root__"], k)] | None => [] end.

Definition validate_DimensionsSchema (obj : DimensionsSchema) : Validated DimensionsSchema :=
  let v_width := dimension_field "width" (width obj) in
  let v_height := dimension_field "height" (height obj) in
  let v_depth := dimension_field "depth" (depth obj) in
  let values := passed "width" v_width ++ passed "height" v_height ++ passed "depth" v_depth in
  let errors := errors_of v_width ++ errors_of v_height ++ errors_of v_depth
                ++ root_error (validate_dimensions values) in
  match v_width, v_height, v_depth, errors with
  | inr w, inr h, inr d, [] => inr {| width := w; height := h; depth := d |}
  | _, _, _, _ => inl errors
  end.

(** *** [ProductBase] *)

Record ProductBase := {
  name : str;
  sku : str;
  description : option str;
  price : PriceSchema;
  tags : list str;
  dimensions : option DimensionsSchema;
  images : option (list ImageSchema);
  in_stock : bool;
  category_id : option Z
}.

(** A [List[...]] field: every item is validated, the errors of all items are
    collected under the item's index. *)
Fixpoint validate_items {A} (f : A -> Validated A) (i : nat) (l : list A) : Validated (list A) :=
  match l with
  | [] => inr []
  | x :: l' =>
      match under (pretty i) (f x), validate_items f (S i) l' with
      | inr y, inr ys => inr (y :: ys)
      | vx, vl => inl (errors_of vx ++ errors_of vl)
      end
  end.

(** An [Optional[...]] field: [None] is accepted as it is. *)
Definition validate_optional {A} (f : A -> Validated A) (v : option A) : Validated (option A) :=
  match v with
  | None => inr None
  | Some a => match f a with inl es => inl es | inr a' => inr (Some a') end
  end.

Definition name_field (v : str) : Validated str :=
  constr_length "name" (Some 3) 100 v.

Definition sku_field (v : str) : Validated str :=
  if sku_regex v then inr v else fail "sku" (Constraint "regex").

Definition description_field : option str -> Validated (option str) :=
  validate_optional (constr_length "description" None 500).

Definition price_field (v : PriceSchema) : Validated PriceSchema :=
  under "price" (validate_PriceSchema v).

Definition dimensions_field : option DimensionsSchema -> Validated (option DimensionsSchema) :=
  validate_optional (fun d => under "dimensions" (validate_DimensionsSchema d)).

Definition images_field `{Libraries} : option (list ImageSchema) -> Validated (option (list ImageSchema)) :=
  validate_optional (fun l => under "images" (validate_items validate_ImageSchema 0 l)).

Definition category_id_field : option Z -> Validated (option Z) :=
  validate_optional (fun c => if 0 <? c then inr c else fail "category_id" (Constraint "gt")).

(** The fields that passed validation, as the root validator receives them:
    [None] is a key missing from [values]. *)
Record Values := {
  v_name : option str;
  v_sku : option str;
  v_description : option (option str);
  v_price : option PriceSchema;
  v_tags : option (list str);
  v_dimensions : option (option DimensionsSchema);
  v_images : option (option (list ImageSchema));
  v_in_stock : option bool;
  v_category_id : option (option Z)
}.

(** The model built from [values] once nothing failed. *)
Definition from_values (values : Values) : option ProductBase :=
  n ← v_name values; s ← v_sku values; d ← v_description values;
  p ← v_price values; t ← v_tags values; dm ← v_dimensions values;
  im ← v_images values; st ← v_in_stock values; c ← v_category_id values;
  Some {| name := n; sku := s; description := d; price := p; tags := t;
          dimensions := dm; images := im; in_stock := st; category_id := c |}.

(** Validation of the fields declared by [ProductBase] alone: what building a
    [ProductResponse] runs on the inherited fields. *)
Definition validate_ProductBase `{Libraries} (obj : ProductBase) : Validated ProductBase :=
  let r_name := name_field (name obj) in
  let r_sku := sku_field (sku obj) in
  let r_description := description_field (description obj) in
  let r_price := price_field (price obj) in
  let r_dimensions := dimensions_field (dimensions obj) in
  let r_images := images_field (images obj) in
  let r_category_id := category_id_field (category_id obj) in
  let values :=
    {| v_name := value_of r_name; v_sku := value_of r_sku;
       v_description := value_of r_description; v_price := value_of r_price;
       v_tags := Some (tags obj); v_dimensions := value_of r_dimensions;
       v_images := value_of r_images; v_in_stock := Some (in_stock obj);
       v_category_id := value_of r_category_id |} in
  let errors :=
    errors_of r_name ++ errors_of r_sku ++ errors_of r_description
    ++ errors_of r_price ++ errors_of r_dimensions ++ errors_of r_images
    ++ errors_of r_category_id in
  match errors, from_values values with
  | [], Some p => inr p
  | _, _ => inl errors
  end.

(** *** [ProductCreate] *)

Definition forbidden_words : list str :=
  [lit "producto"; lit "art" ++ [237%N] ++ lit "culo"; lit "item"; lit "thing"; lit "objeto"].

Definition validate_name `{Builtins} (v : str) : ErrorKind + str :=
  if bool_decide (str_strip (str_lower v) ∈ forbidden_words)
  then inl (ValueError "El nombre no puede ser una palabra genérica")
  else inr (str_title (str_strip v)).

(** What an accepted tag becomes. *)
Definition normalized_tag `{Builtins} (t : str) : str := str_lower (str_strip t).

(** [@validator('tags', each_item=True)] *)
Definition validate_tags `{Builtins} (v : str) : ErrorKind + str :=
  if (len v =? 0) || (len (str_strip v) =? 0)
  then inl (ValueError "Los tags no pueden estar vacíos")
  else if 30 <? len v
  then inl (ValueError "Cada tag debe tener máximo 30 caracteres")
  else inr (str_lower (str_strip v)).

(** [@validator('tags')]: runs on the list of normalised items, and only when
    every item passed. *)
Definition validate_tags_uniqueness (v : list str) : ErrorKind + list str :=
  if negb (len v =? len (remove_dups v))
  then inl (ValueError "No puede haber tags duplicados")
  else if 10 <? len v
  then inl (ValueError "Máximo 10 tags permitidos")
  else inr v.

Definition stock_price_error : ErrorKind :=
  ValueError "Productos fuera de stock no pueden tener precio mayor a $1000".

Definition large_product_error : ErrorKind :=
  ValueError "Productos grandes requieren al menos una imagen".

Definition volume (d : DimensionsSchema) : float :=
  PrimFloat.mul (PrimFloat.mul (width d) (height d)) (depth d).

(** [@root_validator] of [ProductCreate].  It is declared without
    [skip_on_failure], so it also runs when a field failed: [values.get(k)] is
    then [None] for that field.  The first rule that raises ends it. *)
Definition validate_business_rules (values : Values) : option ErrorKind :=
  let in_stock := v_in_stock values in
  let price := v_price values in
  let dimensions := mjoin (v_dimensions values) in
  if negb (default false in_stock)
     && match price with Some p => Decimal_gt (amount p) 1000 | None => false end
  then Some stock_price_error
  else
    match dimensions with
    | Some d =>
        if PrimFloat.ltb 100000%float (volume d)
           && negb (match mjoin (v_images values) with Some (_ :: _) => true | _ => false end)
        then Some large_product_error
        else None
    | None => None
    end.

Section ProductCreate.
Context `{Builtins} `{Libraries}.

Definition name_create_field (v : str) : Validated str :=
  then_validator "name" (name_field v) validate_name.

Definition tags_create_field (v : list str) : Validated (list str) :=
  then_validator "tags"
    (under "tags" (validate_items
       (fun t => match validate_tags t with inl e => inl [([], e)] | inr t' => inr t' end) 0 v))
    validate_tags_uniqueness.

(** The field results of a [ProductCreate] body, in declaration order. *)
Definition ProductCreate_values (obj : ProductBase) : Values :=
  {| v_name := value_of (name_create_field (name obj));
     v_sku := value_of (sku_field (sku obj));
     v_description := value_of (description_field (description obj));
     v_price := value_of (price_field (price obj));
     v_tags := value_of (tags_create_field (tags obj));
     v_dimensions := value_of (dimensions_field (dimensions obj));
     v_images := value_of (images_field (images obj));
     v_in_stock := Some (in_stock obj);
     v_category_id := value_of (category_id_field (category_id obj)) |}.

Definition ProductCreate_field_errors (obj : ProductBase) : list ErrorWrapper :=
  errors_of (name_create_field (name obj))
  ++ errors_of (sku_field (sku obj))
  ++ errors_of (description_field (description obj))
  ++ errors_of (price_field (price obj))
  ++ errors_of (tags_create_field (tags obj))
  ++ errors_of (dimensions_field (dimensions obj))
  ++ errors_of (images_field (images obj))
  ++ errors_of (category_id_field (category_id obj)).

(** Every error of a body: those of the fields, then the one of the root
    validator. *)
Definition ProductCreate_errors (obj : ProductBase) : list ErrorWrapper :=
  ProductCreate_field_errors obj
  ++ root_error (validate_business_rules (ProductCreate_values obj)).

(** Structural validation of a request body into a [ProductCreate]: the
    validated model, or all the errors. *)
Definition validate_ProductCreate (obj : ProductBase) : Validated ProductBase :=
  match ProductCreate_errors obj, from_values (ProductCreate_values obj) with
  | [], Some p => inr p
  | errors, _ => inl errors
  end.

End ProductCreate.

(** *** [ProductResponse] *)

(** [ProductResponse(ProductBase)]: the inherited fields, and the three of
    its own. *)
Record ProductResponse := {
  id : Z;
  base : ProductBase;
  created_at : Z;
  updated_at : option Z
}.

(** ** [app/schemas/response.py] *)

Record ValidationResponse := {
  valid : bool;
  errors : option (gmap string string);
  message : string
}.

(** ** [app/models] *)

Module models.

(** A row of [products].  [id] and [created_at] are [None] on an object that
    was not flushed yet; the JSON columns hold what [.dict()] gave. *)
Module product.
Record Product := {
  id : option Z;
  name : str;
  sku : str;
  description : option str;
  price_amount : Decimal;
  price_currency : str;
  tags : option (list str);
  dimensions : option DimensionsSchema;
  images : option (list ImageSchema);
  in_stock : bool;
  category_id : option Z;
  created_at : option Z;
  updated_at : option Z
}.
End product.

(** Modelled from the spec: [app/models/user.py] is not among the sources;
    the spec gives a user the attributes [id], [is_active] and [is_admin]. *)
Module user.
Record User := { id : Z; is_active : bool; is_admin : bool }.
End user.

End models.

Abbreviation Product := models.product.Product.
Abbreviation User := models.user.User.

(** ** The database session

    The two tables a request can reach.  A row is stored when every value
    fits the column [app/models/product.py] declares for it and the SKU is
    new; what is read back is what the columns hold. *)
Record Session := { users : list User; products : list Product }.

(** [db.query(Product).filter_by(...).first()] *)
Definition query_first {A} (P : A -> bool) (rows : list A) : option A := find P rows.

(** The primary key of the next row. *)
Definition next_id (rows : list Product) : Z :=
  1 + foldr Z.max 0 ((fun p => default 0 (models.product.id p)) <$> rows).

(** [fastapi.HTTPException]: its [detail] is a text, or the dictionary the
    create handler builds. *)
Inductive Detail :=
| Text (s : string)
| BusinessErrors (message : string) (errors : gmap string string).

Record HTTPException := {
  status_code : Z;
  detail : Detail;
  headers : list (string * string)
}.

(** The exceptions a request can raise. *)
Inductive Exception :=
| HTTPError (e : HTTPException)
| IntegrityError                                  (* sqlalchemy.exc *)
| DataError                                       (* sqlalchemy.exc *)
| ValidationError (errors : list ErrorWrapper)    (* pydantic *)
| IntValueError                                   (* int() of a non-number *)
| ResponseError.                                  (* redis.exceptions *)

(** The backend behind [SessionLocal].  [app/config/database.py] is not among
    the sources and the engine is the one [DATABASE_URL] names (PostgreSQL
    unless it is set otherwise), so what a column of a declared type holds is
    a parameter: an [Integer] has the range of the backend, a [String(n)]
    is checked against [n] by some backends only, a text must be one the
    driver can send, and a [DECIMAL(precision, scale)] gives its value back
    at [scale] places. *)
Class Backend := {
  (** whether an [Integer] column holds the value *)
  holds_Integer : Z -> bool;
  (** whether a [String(n)] column holds the text *)
  holds_String : Z -> str -> bool;
  (** whether a [Text] column holds the text *)
  holds_Text : str -> bool;
  (** what a [DECIMAL(precision, scale)] column gives back for the value it
      was given; [None] when it refuses the value *)
  reads_DECIMAL : Z -> Z -> Decimal -> option Decimal;
  (** a value of at most [precision] digits, no more than [scale] of them
      after the point, is held as it is and read back at [scale] places *)
  reads_DECIMAL_exact : forall precision scale d,
    precision <= 15 -> - scale <= exponent d ->
    Z.abs (coefficient d) * 10 ^ (exponent d + scale) < 10 ^ precision ->
    reads_DECIMAL precision scale d = Some (Decimal_rescale scale d)
}.

(** The row as [db.refresh] reads it back: the object that was added, with
    its key, the server's [now()] in [created_at] and the amount as the
    [DECIMAL(10, 2)] column gives it back; [None] when the key or a value
    does not fit its column ([id], [category_id]: [Integer]; [name]:
    [String(100)]; [sku]: [String(20)]; [description]: [Text];
    [price_currency]: [String(3)]; [price_amount]: [DECIMAL(10, 2)]).  The
    JSON columns hold any list or dictionary. *)
Definition refreshed `{Backend} (key now : Z) (p : Product) : option Product :=
  if holds_Integer key
     && holds_String 100 (models.product.name p)
     && holds_String 20 (models.product.sku p)
     && from_option holds_Text true (models.product.description p)
     && holds_String 3 (models.product.price_currency p)
     && from_option holds_Integer true (models.product.category_id p)
  then
    match reads_DECIMAL 10 2 (models.product.price_amount p) with
    | Some price_amount =>
        Some {| models.product.id := Some key;
                models.product.name := models.product.name p;
                models.product.sku := models.product.sku p;
                models.product.description := models.product.description p;
                models.product.price_amount := price_amount;
                models.product.price_currency := models.product.price_currency p;
                models.product.tags := models.product.tags p;
                models.product.dimensions := models.product.dimensions p;
                models.product.images := models.product.images p;
                models.product.in_stock := models.product.in_stock p;
                models.product.category_id := models.product.category_id p;
                models.product.created_at := Some now;
                models.product.updated_at := models.product.updated_at p |}
    | None => None
    end
  else None.

(** [db.add(p); db.commit(); db.refresh(p)].  The commit raises, and leaves
    the table as it was, when a value does not fit its column ([DataError])
    or when the [sku], declared [unique=True], is stored already
    ([IntegrityError]); otherwise the row is stored and read back. *)
Definition add_commit_refresh `{Backend} (db : Session) (now : Z) (p : Product)
    : Exception + (Product * Session) :=
  match refreshed (next_id (products db)) now p with
  | None => inl DataError
  | Some row =>
      if existsb (fun q => bool_decide (models.product.sku q = models.product.sku p))
           (products db)
      then inl IntegrityError
      else inr (row, {| users := users db; products := products db ++ [row] |})
  end.

(** No two stored products share a SKU, and no two share a name. *)
Definition unique_products (db : Session) : Prop :=
  NoDup (models.product.sku <$> products db)
  /\ NoDup (models.product.name <$> products db).

(** ** [app/services/validation_service.py] *)

Module ValidationService.

Definition validate_business_constraints (db : Session) (product_data : ProductBase)
    : gmap string string :=
  let errors : gmap string string := ∅ in
  let existing_sku :=
    query_first (fun p => bool_decide (models.product.sku p = sku product_data)) (products db) in
  let errors :=
    if existing_sku is Some _ then <["sku" := "SKU ya existe en el sistema"]> errors else errors in
  let existing_name :=
    query_first (fun p => bool_decide (models.product.name p = name product_data)) (products db) in
  let errors :=
    if existing_name is Some _ then <["name" := "Ya existe un producto con este nombre"]> errors
    else errors in
  errors.

End ValidationService.

(** [[f(x) for x in xs]] where [f] may raise: the first exception ends the
    comprehension. *)
Fixpoint comprehension {A B} (f : A -> Exception + B) (xs : list A) : Exception + list B :=
  match xs with
  | [] => inr []
  | x :: xs' =>
      match f x with
      | inl exc => inl exc
      | inr y =>
          match comprehension f xs' with
          | inl exc => inl exc
          | inr ys => inr (y :: ys)
          end
      end
  end.

(** ** [app/services/product_service.py] *)

Module ProductService.
Section ProductService.
Context `{Libraries} `{Backend}.

(** Building the [ProductResponse] validates the inherited fields again; a
    failure is pydantic's [ValidationError]. *)
Definition _to_response (db_product : Product) : Exception + ProductResponse :=
  let fields :=
    {| name := models.product.name db_product;
       sku := models.product.sku db_product;
       description := models.product.description db_product;
       price := {| amount := models.product.price_amount db_product;
                   currency := models.product.price_currency db_product |};
       tags := default [] (models.product.tags db_product);
       dimensions := models.product.dimensions db_product;
       images := Some (default [] (models.product.images db_product));
       in_stock := models.product.in_stock db_product;
       category_id := models.product.category_id db_product |} in
  match models.product.id db_product, models.product.created_at db_product,
        validate_ProductBase fields with
  | Some i, Some c, inr b =>
      inr {| id := i; base := b; created_at := c;
             updated_at := models.product.updated_at db_product |}
  | i, c, v =>
      inl (ValidationError
             ((if i is Some _ then [] else [(["id"], Constraint "none.not_allowed")])
              ++ errors_of v
              ++ (if c is Some _ then [] else [(["created_at"], Constraint "none.not_allowed")])))
  end.

(** The [Product(...)] that [create_product] builds. *)
Definition db_product (product_data : ProductBase) : Product :=
  {| models.product.id := None;
     models.product.name := name product_data;
     models.product.sku := sku product_data;
     models.product.description := description product_data;
     models.product.price_amount := amount (price product_data);
     models.product.price_currency := currency (price product_data);
     models.product.tags := Some (tags product_data);
     models.product.dimensions := dimensions product_data;
     models.product.images :=
       Some (match images product_data with
             | Some (img :: imgs) => img :: imgs
             | _ => []
             end);
     models.product.in_stock := in_stock product_data;
     models.product.category_id := category_id product_data;
     models.product.created_at := None;
     models.product.updated_at := None |}.

Definition create_product (db : Session) (now : Z) (product_data : ProductBase)
    : (Exception + ProductResponse) * Session :=
  let db_product := db_product product_data in
  match add_commit_refresh db now db_product with
  | inl exc => (inl exc, db)
  | inr (db_product, db') => (_to_response db_product, db')
  end.

(** [offset(skip).limit(limit).all()].  The query has no [order_by]: the
    rows are read in the order the table holds them, here the order in which
    they were stored.  The handler only passes a [skip] and a [limit] that
    are not negative. *)
Definition get_products (db : Session) (skip limit : nat) : Exception + list ProductResponse :=
  let products := take limit (drop skip (products db)) in
  comprehension _to_response products.

Definition get_product_by_id (db : Session) (product_id : Z)
    : Exception + option ProductResponse :=
  let product :=
    query_first (fun p => bool_decide (models.product.id p = Some product_id)) (products db) in
  match product with
  | Some product =>
      match _to_response product with
      | inl exc => inl exc
      | inr r => inr (Some r)
      end
  | None => inr None
  end.

End ProductService.
End ProductService.

(** ** [app/api/v1/endpoints/products.py] *)

Module endpoints.
Section endpoints.
Context `{Libraries} `{Backend}.

(** The handler body of [POST /]: on return the response is sent with status
    201.  [HTTPException] passes through; any other exception becomes a 500. *)
Definition create_product (db : Session) (now : Z) (product_data : ProductBase)
    : (HTTPException + ProductResponse) * Session :=
  let business_errors := ValidationService.validate_business_constraints db product_data in
  if bool_decide (business_errors ≠ ∅)
  then (inl {| status_code := 422;
               detail := BusinessErrors "Errores de validación de negocio" business_errors;
               headers := [] |}, db)
  else
    match ProductService.create_product db now product_data with
    | (inr product, db') => (inr product, db')
    | (inl _, db') =>
        (inl {| status_code := 500; detail := Text "Error interno del servidor";
                headers := [] |}, db')
    end.

(** The handler body of [POST /validate]. *)
Definition validate_product (db : Session) (product_data : ProductBase)
    : ValidationResponse * Session :=
  let business_errors := ValidationService.validate_business_constraints db product_data in
  ({| valid := bool_decide (size business_errors = 0%nat);
      errors := if bool_decide (business_errors ≠ ∅) then Some business_errors else None;
      message := if negb (bool_decide (business_errors ≠ ∅)) then "Datos válidos"
                 else "Se encontraron errores" |}, db).

(** The handler body of [GET /]. *)
Definition get_products (db : Session) (skip limit : nat) : Exception + list ProductResponse :=
  ProductService.get_products db skip limit.

(** The handler body of [GET /{product_id}]. *)
Definition get_product (db : Session) (product_id : Z) : Exception + ProductResponse :=
  match ProductService.get_product_by_id db product_id with
  | inl exc => inl exc
  | inr None =>
      inl (HTTPError {| status_code := 404; detail := Text "Producto no encontrado";
                        headers := [] |})
  | inr (Some product) => inr product
  end.

End endpoints.
End endpoints.

(** ** The request as FastAPI serves it

    The body is validated into a [ProductCreate] before the handler runs; a
    body that fails is answered by [validation_exception_handler]
    ([app/core/exceptions.py]) with status 422, and the handler never runs. *)
Inductive Response :=
| Created (product : ProductResponse)
| Validation (result : ValidationResponse)
| RequestValidationError (errors : list ErrorWrapper)
| Failed (e : HTTPException).

Definition status (r : Response) : Z :=
  match r with
  | Created _ => 201
  | Validation _ => 200
  | RequestValidationError _ => 422
  | Failed e => status_code e
  end.

(** What a [GET] request is answered: the body with status 200, the errors
    of the query parameters (422), the [HTTPException] the handler raised, or
    an exception no handler of the application catches. *)
Inductive Reply (A : Type) :=
| Ok200 (body : A)
| Unprocessable (errors : list ErrorWrapper)
| Raised (e : HTTPException)
| Unhandled (exc : Exception).
Arguments Ok200 {A} body.
Arguments Unprocessable {A} errors.
Arguments Raised {A} e.
Arguments Unhandled {A} exc.

Section Routes.
Context `{Builtins} `{Libraries} `{Backend}.

Definition POST_products (db : Session) (now : Z) (body : ProductBase) : Response * Session :=
  match validate_ProductCreate body with
  | inl errors => (RequestValidationError errors, db)
  | inr product_data =>
      match endpoints.create_product db now product_data with
      | (inr product, db') => (Created product, db')
      | (inl e, db') => (Failed e, db')
      end
  end.

Definition POST_products_validate (db : Session) (body : ProductBase) : Response * Session :=
  match validate_ProductCreate body with
  | inl errors => (RequestValidationError errors, db)
  | inr product_data =>
      let '(result, db') := endpoints.validate_product db product_data in
      (Validation result, db')
  end.

(** A sequence of create requests, each with its arrival time, served one
    after the other. *)
Fixpoint serve (db : Session) (requests : list (Z * ProductBase)) : list Response * Session :=
  match requests with
  | [] => ([], db)
  | (now, body) :: rest =>
      let '(r, db') := POST_products db now body in
      let '(rs, db'') := serve db' rest in
      (r :: rs, db'')
  end.

(** [Query(default, ge=..., le=...)]: an absent parameter takes the default,
    a present one is checked against the bounds. *)
Definition Query (loc : string) (default_ : Z) (ge : Z) (le : option Z) (v : option Z)
    : Validated Z :=
  match v with
  | None => inr default_
  | Some n =>
      if n <? ge then inl [(["query"; loc], Constraint "ge")]
      else if match le with Some hi => hi <? n | None => false end
      then inl [(["query"; loc], Constraint "le")]
      else inr n
  end.

Definition GET_products (db : Session) (skip limit : option Z) : Reply (list ProductResponse) :=
  match Query "skip" 0 0 None skip, Query "limit" 100 1 (Some 100) limit with
  | inr skip, inr limit =>
      match endpoints.get_products db (Z.to_nat skip) (Z.to_nat limit) with
      | inr products => Ok200 products
      | inl (HTTPError e) => Raised e
      | inl exc => Unhandled exc
      end
  | v_skip, v_limit => Unprocessable (errors_of v_skip ++ errors_of v_limit)
  end.

Definition GET_product (db : Session) (product_id : Z) : Reply ProductResponse :=
  match endpoints.get_product db product_id with
  | inr product => Ok200 product
  | inl (HTTPError e) => Raised e
  | inl exc => Unhandled exc
  end.

End Routes.

(** ** [app/api/deps.py] *)

(** [app/config/settings.py]: the one setting [deps] reads that is declared
    there. *)
Record Settings := { SECRET_KEY : string }.

(** What resolving a dependency did to the outside world. *)
Inductive Event :=
| Decoded (token : string)
| UserQueried (user_id : Z).

(** How many times a resolution decoded a token. *)
Definition decodes (log : list Event) : nat :=
  length (List.filter (fun e => match e with Decoded _ => true | _ => false end) log).

(** The cache store: an integer counter per key, with the time (in seconds)
    at which it expires, if any.  The store keeps the counter as the decimal
    text that [int(current)] reads back. *)
Record Counter := { value : Z; expires_at : option Z }.

Definition live (now : Z) (c : Counter) : bool :=
  match expires_at c with Some t => now <? t | None => true end.

(** [GET key] *)
Definition redis_get (r : gmap string Counter) (now : Z) (key : string) : option Z :=
  c ← r !! key; if live now c then Some (value c) else None.

(** [SETEX key seconds value]; the store refuses a time-to-live that is not
    positive. *)
Definition redis_setex (r : gmap string Counter) (now : Z) (key : string) (seconds v : Z)
    : Exception + gmap string Counter :=
  if seconds <=? 0 then inl ResponseError
  else inr (<[key := {| value := v; expires_at := Some (now + seconds) |}]> r).

(** [INCR key]: a live counter keeps its expiry, a missing one starts at 1
    without any. *)
Definition redis_incr (r : gmap string Counter) (now : Z) (key : string) : gmap string Counter :=
  match r !! key with
  | Some c =>
      if live now c
      then <[key := {| value := value c + 1; expires_at := expires_at c |}]> r
      else <[key := {| value := 1; expires_at := None |}]> r
  | None => <[key := {| value := 1; expires_at := None |}]> r
  end.

(** The dictionary [validate_pagination] returns. *)
Module pagination.
Record Pagination := { skip : Z; limit : Z; page : Z; size : Z }.
End pagination.

(** The order [sorted(params.items())] puts the parameters in: by key (the
    keys of a dictionary are distinct, so no two values are ever compared),
    strings being compared character by character. *)
Definition key_le (a b : string * option string) : Prop := String.le a.1 b.1.

#[global] Instance key_le_dec : RelDecision key_le.
Proof. intros a b. unfold key_le. apply _. Defined.

Module deps.
Section deps.
Context `{Builtins} `{Libraries}.
Variable settings : Settings.

Definition credentials_exception : HTTPException :=
  {| status_code := 401;
     detail := Text "No se pudieron validar las credenciales";
     headers := [("WWW-Authenticate", "Bearer")] |}.

Definition get_current_user (db : Session) (credentials : string)
    : list Event * (Exception + User) :=
  match jwt_decode credentials (SECRET_KEY settings) ["HS256"] with
  | None => ([Decoded credentials], inl (HTTPError credentials_exception))
  | Some payload =>
      match payload !! "sub" with
      | None => ([Decoded credentials], inl (HTTPError credentials_exception))
      | Some user_id =>
          match int_of_str user_id with
          | None => ([Decoded credentials], inl IntValueError)
          | Some i =>
              ([Decoded credentials; UserQueried i],
               match query_first (fun u => bool_decide (models.user.id u = i)) (users db) with
               | None => inl (HTTPError credentials_exception)
               | Some user => inr user
               end)
          end
      end
  end.

Definition get_current_active_user (current_user : User) : Exception + User :=
  if negb (models.user.is_active current_user)
  then inl (HTTPError {| status_code := 400; detail := Text "Usuario inactivo"; headers := [] |})
  else inr current_user.

Definition get_current_admin_user (current_user : User) : Exception + User :=
  if negb (models.user.is_admin current_user)
  then inl (HTTPError {| status_code := 403; detail := Text "No tienes permisos suficientes";
                         headers := [] |})
  else inr current_user.

(** [Depends(f)]: the dependency it names is resolved first, and [f] runs on
    its value; an exception ends the resolution. *)
Definition Depends {A B} (dep : list Event * (Exception + A)) (f : A -> Exception + B)
    : list Event * (Exception + B) :=
  (fst dep, match snd dep with inl e => inl e | inr a => f a end).

Definition CurrentUser (db : Session) (credentials : string) : list Event * (Exception + User) :=
  get_current_user db credentials.

Definition ActiveUser (db : Session) (credentials : string) : list Event * (Exception + User) :=
  Depends (CurrentUser db credentials) get_current_active_user.

Definition AdminUser (db : Session) (credentials : string) : list Event * (Exception + User) :=
  Depends (ActiveUser db credentials) get_current_admin_user.

(** [rate_limit(max_requests, window_minutes)] returns [rate_limiter]; this is
    the latter, for a request from [request_ip] arriving at [now]. *)
Definition rate_limit (max_requests window_minutes : Z)
    (request_ip : string) (redis_client : gmap string Counter) (now : Z)
    : (Exception + bool) * gmap string Counter :=
  let key := "rate_limit:" +:+ request_ip in
  match redis_get redis_client now key with
  | None =>
      match redis_setex redis_client now key (window_minutes * 60) 1 with
      | inl e => (inl e, redis_client)
      | inr r => (inr true, r)
      end
  | Some current_count =>
      if max_requests <=? current_count
      then (inl (HTTPError
                   {| status_code := 429;
                      detail := Text ("Rate limit excedido. Máximo " +:+ pretty max_requests
                                      +:+ " requests por " +:+ pretty window_minutes
                                      +:+ " minutos");
                      headers := [] |}), redis_client)
      else (inr true, redis_incr redis_client now key)
  end.

Definition validate_pagination (page size : Z) : pagination.Pagination :=
  {| pagination.skip := (page - 1) * size;
     pagination.limit := size;
     pagination.page := page;
     pagination.size := size |}.

(** [Depends(validate_pagination)]: [page] and [size] are query parameters,
    [Query(1, ge=1)] and [Query(10, ge=1, le=100)]. *)
Definition Pagination (page size : option Z) : Validated pagination.Pagination :=
  match Query "page" 1 1 None page, Query "size" 10 1 (Some 100) size with
  | inr page, inr size => inr (validate_pagination page size)
  | v_page, v_size => inl (errors_of v_page ++ errors_of v_size)
  end.

(** [params] are the keyword arguments in the order of the call, each value
    [None] or already rendered as [f"{value}"] renders it. *)
Definition get_cache_key (endpoint : string) (user_id : option Z)
    (params : list (string * option string)) : string :=
  let key_parts := [endpoint] in
  let key_parts :=
    match user_id with
    | Some u => if bool_decide (u = 0) then key_parts else key_parts ++ ["user:" +:+ pretty u]
    | None => key_parts
    end in
  let key_parts :=
    foldl (fun parts '(key, value) =>
             match value with
             | Some v => parts ++ [key +:+ ":" +:+ v]
             | None => parts
             end)
          key_parts (merge_sort key_le params) in
  String.concat ":" key_parts.

(** What resolving [validate_product_ownership] can raise: what the tier
    below it or its own body raises, or the [AttributeError] of reading an
    attribute the row does not have. *)
Inductive OwnershipError :=
| Raise (exc : Exception)
| AttributeError (attribute : string).

(** [product.owner_id].  [app/models/product.py] declares no such column, and
    [app/models/base.py], which [Product] inherits from, is not among the
    sources: the read gives [None] where the row has no such attribute, and
    the owner, which may be [NULL], where it has. *)
Variable owner_id : Product -> option (option Z).

(** [not current_user.is_admin and product.owner_id != current_user.id]:
    [and] reads [product.owner_id] only when the user is not an admin. *)
Definition validate_product_ownership (product_id : Z) (current_user : User) (db : Session)
    : OwnershipError + Product :=
  let product :=
    query_first (fun p => bool_decide (models.product.id p = Some product_id)) (products db) in
  match product with
  | None =>
      inl (Raise (HTTPError {| status_code := 404; detail := Text "Producto no encontrado";
                               headers := [] |}))
  | Some product =>
      if negb (models.user.is_admin current_user)
      then
        match owner_id product with
        | None => inl (AttributeError "owner_id")
        | Some owner =>
            if negb (bool_decide (owner = Some (models.user.id current_user)))
            then inl (Raise (HTTPError
                               {| status_code := 403;
                                  detail := Text "No tienes permisos para acceder a este producto";
                                  headers := [] |}))
            else inr product
        end
      else inr product
  end.

(** [Depends(validate_product_ownership)]: its [current_user] is the resolved
    [get_current_active_user], its [db] the request's session. *)
Definition ProductOwnership (db : Session) (credentials : string) (product_id : Z)
    : list Event * (OwnershipError + Product) :=
  let active := ActiveUser db credentials in
  (fst active,
   match snd active with
   | inl exc => inl (Raise exc)
   | inr current_user => validate_product_ownership product_id current_user db
   end).

End deps.
End deps.

(** ** A concrete runtime

    The builtins restricted to ASCII text: on a string of ASCII characters
    they compute what Python computes ([int] reads an optional sign followed
    by decimal digits, surrounded by whitespace).  They serve to run the
    model on concrete requests. *)

Definition ascii_isspace (c : N) : bool :=
  in_range 9 13 c || in_range 28 32 c.

Definition is_lower_ascii : N -> bool := in_range 97 122.

Definition ascii_lower_char (c : N) : N := if is_upper_ascii c then (c + 32)%N else c.
Definition ascii_upper_char (c : N) : N := if is_lower_ascii c then (c - 32)%N else c.

(** [str.title]: a cased character is lowered after a cased one and raised
    anywhere else. *)
Fixpoint ascii_title_from (previous_is_cased : bool) (s : str) : str :=
  match s with
  | [] => []
  | c :: s' =>
      (if previous_is_cased then ascii_lower_char c else ascii_upper_char c)
      :: ascii_title_from (is_upper_ascii c || is_lower_ascii c) s'
  end.

Fixpoint ascii_digits (acc : Z) (s : str) : option Z :=
  match s with
  | [] => Some acc
  | c :: s' =>
      if is_digit_ascii c then ascii_digits (10 * acc + Z.of_N (c - 48)) s' else None
  end.

Definition ascii_int (s : str) : option Z :=
  match rev (lstrip_with ascii_isspace (rev (lstrip_with ascii_isspace s))) with
  | [] => None
  | 45%N :: ((_ :: _) as ds) => Z.opp <$> ascii_digits 0 ds
  | 43%N :: ((_ :: _) as ds) => ascii_digits 0 ds
  | [45%N] | [43%N] => None
  | ds => ascii_digits 0 ds
  end.

Definition ascii_builtins : Builtins :=
  {| isspace := ascii_isspace;
     str_lower := fmap ascii_lower_char;
     str_title := ascii_title_from false;
     int_of_str := ascii_int |}.

(** A URL check that keeps what it accepts: [http://] or [https://] followed
    by something. *)
Definition simple_HttpUrl (u : str) : option str :=
  if bool_decide (take 7 u = lit "http://" /\ (7 < length u)%nat)
     || bool_decide (take 8 u = lit "https://" /\ (8 < length u)%nat)
  then Some u else None.

(** A token table in place of signature checking: three tokens signed with
    the default key, one of them without subject. *)
Definition table_jwt_decode (token key : string) (algorithms : list string)
    : option (gmap string str) :=
  if bool_decide (key = "your-secret-key-here" /\ algorithms = ["HS256"])
  then
    if bool_decide (token = "token-no-sub") then Some ∅
    else if bool_decide (token = "token-1") then Some {[ "sub" := lit "1" ]}
    else if bool_decide (token = "token-2") then Some {[ "sub" := lit "2" ]}
    else if bool_decide (token = "token-3") then Some {[ "sub" := lit "3" ]}
    else if bool_decide (token = "token-9") then Some {[ "sub" := lit "9" ]}
    else None
  else None.

(** The two libraries, for the runs below. *)
Definition simple_libraries : Libraries.
Proof.
  refine {| HttpUrl := simple_HttpUrl; jwt_decode := table_jwt_decode |}.
  intros u u'. unfold simple_HttpUrl. intros Hu.
  destruct (_ || _) eqn:E; [|done]. injection Hu as <-. by rewrite E.
Defined.

(** PostgreSQL, the backend of the default [DATABASE_URL]: an [Integer] has
    32 bits, a [String(n)] refuses a text of more than [n] characters (one
    whose excess is spaces it cuts instead; no name that was stripped, and no
    SKU or currency that matched its pattern, ends in a space), a text cannot
    hold U+0000 nor a surrogate, and a [numeric(precision, scale)] rounds to
    [scale] places, half away from zero, and refuses what then needs more
    than [precision] digits. *)
Definition postgresql_text (s : str) : bool :=
  forallb (fun c => negb (c =? 0)%N && negb (in_range 55296 57343 c)) s.

Definition postgresql_numeric (precision scale : Z) (d : Decimal) : option Decimal :=
  let k := exponent d + scale in
  let c :=
    if 0 <=? k then coefficient d * 10 ^ k
    else Z.sgn (coefficient d)
         * ((2 * Z.abs (coefficient d) + 10 ^ (- k)) / (2 * 10 ^ (- k))) in
  if Z.abs c <? 10 ^ precision
  then Some {| coefficient := c; exponent := - scale |}
  else None.

Definition postgresql : Backend.
Proof.
  refine {| holds_Integer := fun v => (- 2 ^ 31 <=? v) && (v <? 2 ^ 31);
            holds_String := fun n s => (len s <=? n) && postgresql_text s;
            holds_Text := postgresql_text;
            reads_DECIMAL := postgresql_numeric |}.
  intros precision scale d _ Hscale Hfit. unfold postgresql_numeric, Decimal_rescale.
  rewrite (proj2 (Z.leb_le 0 (exponent d + scale))) by lia.
  assert (0 <= 10 ^ (exponent d + scale)) by (apply Z.pow_nonneg; lia).
  rewrite Z.abs_mul, (Z.abs_eq (10 ^ _)) by done.
  by rewrite (proj2 (Z.ltb_lt _ _) Hfit).
Defined.

(** ** Notions used in the statements *)

(** A result that, when it is a failure, carries at least one error. *)
Definition reports {A} (v : Validated A) : Prop := forall es, v = inl es -> es <> [].

(** [a == b] for two [Decimal]s: the same number, whatever the places it is
    written with. *)
Definition Decimal_eq (a b : Decimal) : Prop :=
  let e := Z.min (exponent a) (exponent b) in
  coefficient a * 10 ^ (exponent a - e) = coefficient b * 10 ^ (exponent b - e).

(** The fields of the response built for an accepted [ProductCreate] that was
    stored: the amount is the one the [DECIMAL(10, 2)] column gives back. *)
Definition response_fields (p : ProductBase) : ProductBase :=
  {| name := name p; sku := sku p; description := description p;
     price := {| amount := Decimal_rescale 2 (amount (price p));
                 currency := currency (price p) |};
     tags := tags p; dimensions := dimensions p;
     images := Some (match images p with Some (img :: imgs) => img :: imgs | _ => [] end);
     in_stock := in_stock p; category_id := category_id p |}.

(** What the create handler raises on a non-empty mapping. *)
Definition business_validation_failed (business_errors : gmap string string) : HTTPException :=
  {| status_code := 422;
     detail := BusinessErrors "Errores de validación de negocio" business_errors;
     headers := [] |}.

(** What the rate limiter raises. *)
Definition too_many_requests (max_requests window_minutes : Z) : HTTPException :=
  {| status_code := 429;
     detail := Text ("Rate limit excedido. Máximo " +:+ pretty max_requests
                     +:+ " requests por " +:+ pretty window_minutes +:+ " minutos");
     headers := [] |}.

(** The SKU, or the name, of a body is the one of a stored product. *)
Definition sku_taken (db : Session) (product_data : ProductBase) : Prop :=
  exists q, q ∈ products db /\ models.product.sku q = sku product_data.

Definition name_taken (db : Session) (product_data : ProductBase) : Prop :=
  exists q, q ∈ products db /\ models.product.name q = name product_data.

(** What the schema promises of a stored row: the stock and price rule, the
    volume and image rule, distinct tags and at most 10 of them, a SKU of the
    declared pattern and a currency of the declared set. *)
Definition row_keeps_rules (row : Product) : Prop :=
  (models.product.in_stock row = false ->
     Decimal_gt (models.product.price_amount row) 1000 = false)
  /\ (forall d, models.product.dimensions row = Some d ->
        PrimFloat.ltb 100000%float (volume d) = true ->
        exists img imgs, models.product.images row = Some (img :: imgs))
  /\ (forall ts, models.product.tags row = Some ts -> NoDup ts /\ len ts <= 10)
  /\ sku_regex (models.product.sku row) = true
  /\ models.product.price_currency row ∈ valid_currencies.

(** The parts a list of parameters contributes to a cache key, in its
    order. *)
Definition rendered (params : list (string * option string)) : list string :=
  omap (fun kv => (fun v => kv.1 +:+ ":" +:+ v) <$> kv.2) params.

(** A character of the class [[A-Z0-9\-]]. *)
Definition sku_char (c : N) : bool :=
  is_upper_ascii c || is_digit_ascii c || (c =? 45)%N.

(** Requests from one address, at the given times, checked one after the
    other. *)
Fixpoint rate_limit_run (max_requests window_minutes : Z) (request_ip : string)
    (redis_client : gmap string Counter) (times : list Z)
    : list (Exception + bool) * gmap string Counter :=
  match times with
  | [] => ([], redis_client)
  | now :: rest =>
      let '(r, redis_client') :=
        deps.rate_limit max_requests window_minutes request_ip redis_client now in
      let '(rs, redis_client'') :=
        rate_limit_run max_requests window_minutes request_ip redis_client' rest in
      (r :: rs, redis_client'')
  end.

(** ** Requests for the runs *)

Definition usd (cents : Z) : PriceSchema :=
  {| amount := {| coefficient := cents; exponent := -2 |}; currency := lit "USD" |}.

(** A body as a client sends it, and the [ProductCreate] it validates to. *)
Definition widget_body : ProductBase :=
  {| name := lit "  widget pro "; sku := lit "ABC-12345";
     description := Some (lit "A widget"); price := usd 1999;
     tags := [lit " New "; lit "SALE"];
     dimensions := Some {| width := 10; height := 20; depth := 30 |};
     images := None; in_stock := true; category_id := Some 3 |}.

Definition widget : ProductBase :=
  {| name := lit "Widget Pro"; sku := lit "ABC-12345";
     description := Some (lit "A widget"); price := usd 1999;
     tags := [lit "new"; lit "sale"];
     dimensions := Some {| width := 10; height := 20; depth := 30 |};
     images := None; in_stock := true; category_id := Some 3 |}.

(** Out of stock at 1500.00. *)
Definition lamp_body : ProductBase :=
  {| name := lit "Desk lamp"; sku := lit "LAMP-00001"; description := None;
     price := usd 150000; tags := []; dimensions := None; images := Some [];
     in_stock := false; category_id := None |}.

(** A cubic metre, without any image. *)
Definition crate_body : ProductBase :=
  {| name := lit "Crate"; sku := lit "CRATE-001"; description := None;
     price := usd 4500; tags := [];
     dimensions := Some {| width := 100; height := 100; depth := 100 |};
     images := None; in_stock := true; category_id := None |}.

(** The same crate with one image, whose [alt_text] is empty. *)
Definition crate_with_bad_image : ProductBase :=
  {| name := lit "Crate"; sku := lit "CRATE-001"; description := None;
     price := usd 4500; tags := [];
     dimensions := Some {| width := 100; height := 100; depth := 100 |};
     images := Some [ {| url := lit "http://example.com/crate.png"; alt_text := [] |} ];
     in_stock := true; category_id := None |}.

(** Two tags that differ only by case and spaces. *)
Definition twice_tagged_body : ProductBase :=
  {| name := lit "Mug"; sku := lit "MUG-00001"; description := None;
     price := usd 900; tags := [lit " New "; lit "new"]; dimensions := None;
     images := Some []; in_stock := true; category_id := None |}.

(** A generic name. *)
Definition item_body : ProductBase :=
  {| name := lit "  ITEM "; sku := lit "ITEM-0001"; description := None;
     price := usd 900; tags := []; dimensions := None;
     images := Some []; in_stock := true; category_id := None |}.

(** A name of five characters, one of them not a space. *)
Definition short_name_body : ProductBase :=
  {| name := lit "  a  "; sku := lit "SHORT-001"; description := None;
     price := usd 900; tags := []; dimensions := None;
     images := Some []; in_stock := true; category_id := None |}.

(** A plain accepted body. *)
Definition mug_body : ProductBase :=
  {| name := lit "Mug"; sku := lit "MUG-00001"; description := None;
     price := usd 900; tags := [lit "kitchen"]; dimensions := None;
     images := Some [ {| url := lit "https://example.com/mug.png"; alt_text := lit "a mug" |} ];
     in_stock := true; category_id := None |}.

(** A price of 19.9, written with one place. *)
Definition pen_body : ProductBase :=
  {| name := lit "Pen"; sku := lit "PEN-00001"; description := None;
     price := {| amount := {| coefficient := 199; exponent := -1 |};
                 currency := lit "EUR" |};
     tags := []; dimensions := None; images := Some [];
     in_stock := true; category_id := None |}.

(** A category beyond 64 bits: [category_id] is only declared [gt=0]. *)
Definition far_category_body : ProductBase :=
  {| name := lit "Globe"; sku := lit "GLOBE-001"; description := None;
     price := usd 2500; tags := []; dimensions := None; images := Some [];
     in_stock := true; category_id := Some (2 ^ 63) |}.

Definition empty_db : Session := {| users := []; products := [] |}.

(** What [short_name_body] validates to. *)
Definition short_name : ProductBase :=
  {| name := lit "A"; sku := lit "SHORT-001"; description := None;
     price := usd 900; tags := []; dimensions := None;
     images := Some []; in_stock := true; category_id := None |}.

(** The table after the widget and the mug were created. *)
Definition two_products : Session :=
  snd (@serve ascii_builtins simple_libraries postgresql empty_db
         [(100, widget_body); (220, mug_body)]).

(** The table after [short_name_body] was posted. *)
Definition one_short_name : Session :=
  snd (@POST_products ascii_builtins simple_libraries postgresql empty_db 100
         short_name_body).

(** An admin, an inactive user and an active user who is no admin. *)
Definition three_users : Session :=
  {| users := [ {| models.user.id := 1; models.user.is_active := true;
                   models.user.is_admin := true |};
                {| models.user.id := 2; models.user.is_active := false;
                   models.user.is_admin := false |};
                {| models.user.id := 3; models.user.is_active := true;
                   models.user.is_admin := false |} ];
     products := [] |}.

Definition default_settings : Settings := {| SECRET_KEY := "your-secret-key-here" |}.

(** * Properties *)

(** ** Field validators: what they return, and that they report something
       when they fail *)

Lemma constr_length_inr loc lo hi v v' :
  constr_length loc lo hi v = inr v' ->
  v' = v /\ constr_length loc lo hi v' = inr v'.
Proof.
  intros Hv. assert (v' = v) as ->; [|done].
  unfold constr_length in Hv. repeat case_match; naive_solver.
Qed.

Lemma constr_length_inl loc lo hi v es :
  constr_length loc lo hi v = inl es -> es <> [].
Proof. unfold constr_length, fail. repeat case_match; naive_solver. Qed.

Lemma name_field_ok v : 3 <= len v <= 100 -> name_field v = inr v.
Proof.
  intros [Hlo Hhi]. unfold name_field, constr_length.
  apply Z.ltb_ge in Hlo as ->. by apply Z.ltb_ge in Hhi as ->.
Qed.

Lemma under_inr {A} loc (v : Validated A) a : under loc v = inr a <-> v = inr a.
Proof. destruct v; naive_solver. Qed.

Lemma under_inl {A} loc (v : Validated A) es :
  under loc v = inl es -> exists es', v = inl es' /\ (es' <> [] -> es <> []).
Proof.
  destruct v as [es'|]; [|done]. intros [= <-]. exists es'. split; [done|].
  by destruct es'.
Qed.

Lemma validate_optional_inr {A} (f : A -> Validated A) v v' :
  validate_optional f v = inr v' ->
  match v, v' with
  | None, None => True
  | Some a, Some a' => f a = inr a'
  | _, _ => False
  end.
Proof. destruct v as [a|]; simpl; [destruct (f a) eqn:E|]; naive_solver. Qed.

Lemma validate_optional_inl {A} (f : A -> Validated A) v es :
  validate_optional f v = inl es -> exists a, v = Some a /\ f a = inl es.
Proof. destruct v as [a|]; simpl; [destruct (f a) eqn:E|]; naive_solver. Qed.

Lemma then_validator_inr {A} loc (v : Validated A) f a' :
  then_validator loc v f = inr a' <-> exists a, v = inr a /\ f a = inr a'.
Proof.
  unfold then_validator, fail. destruct v as [es|a].
  - split; [done|]. by intros (a & [=] & _).
  - destruct (f a) as [e|b] eqn:E.
    + split; [done|]. intros (a0 & [= <-] & Ha). congruence.
    + split; [intros [= <-]; eauto|]. intros (a0 & [= <-] & Ha). congruence.
Qed.

Lemma then_validator_inl {A} loc (v : Validated A) f es :
  then_validator loc v f = inl es ->
  v = inl es \/ exists a e, v = inr a /\ f a = inl e /\ es = [([loc], e)].
Proof.
  unfold then_validator, fail. destruct v as [es'|a].
  - intros [= <-]. by left.
  - destruct (f a) as [e|b] eqn:E; [|done]. intros [= <-]. right. eauto.
Qed.

(** A list field passes exactly when every item does, item by item. *)
Lemma validate_items_inr {A} (f : A -> Validated A) i l l' :
  validate_items f i l = inr l' <-> Forall2 (fun x y => f x = inr y) l l'.
Proof.
  revert i l'. induction l as [|x l IH]; intros i l'; simpl.
  - split; [intros [= <-]; constructor | intros Hl; by inversion Hl].
  - specialize (IH (S i)).
    destruct (f x) as [ex|y] eqn:Ex; simpl.
    + split; [done|]. intros Hl. inversion Hl; congruence.
    + destruct (validate_items f (S i) l) as [el|ys] eqn:El.
      * split; [done|]. intros Hl. inversion Hl as [|? y' ? ys' Hy Hys]; subst.
        apply IH in Hys. congruence.
      * split.
        -- intros [= <-]. constructor; [done|]. by apply IH.
        -- intros Hl. inversion Hl as [|? y' ? ys' Hy Hys]; subst.
           apply IH in Hys. congruence.
Qed.

Lemma validate_items_inl {A} (f : A -> Validated A) i l es :
  (forall x es', f x = inl es' -> es' <> []) ->
  validate_items f i l = inl es -> es <> [].
Proof.
  intros Hf. revert i es. induction l as [|x l IH]; intros i es; simpl; [done|].
  destruct (f x) as [ex|y] eqn:Ex; simpl.
  - intros [= <-]. apply Hf in Ex. destruct ex; [done|]. simpl. discriminate.
  - destruct (validate_items f (S i) l) as [el|ys] eqn:El; [|done].
    intros [= <-]. simpl. by eapply IH.
Qed.

(** Items that validate to themselves do so at any index. *)
Lemma validate_items_again {A} (f : A -> Validated A) i j l l' :
  (forall x y, f x = inr y -> f y = inr y) ->
  validate_items f i l = inr l' -> validate_items f j l' = inr l'.
Proof.
  intros Hf Hl. apply validate_items_inr in Hl. apply validate_items_inr.
  induction Hl; constructor; eauto.
Qed.

(** ** The nested models return what they were given *)

Lemma amount_field_inr v v' : amount_field v = inr v' -> v' = v.
Proof.
  unfold amount_field, fail. cbv zeta.
  repeat (case_match; try discriminate); by intros [= <-].
Qed.

Lemma amount_field_inl v es : amount_field v = inl es -> es <> [].
Proof.
  unfold amount_field, fail. cbv zeta.
  repeat (case_match; try discriminate); by intros [= <-].
Qed.

Lemma currency_field_inr v v' : currency_field v = inr v' -> v' = v.
Proof.
  unfold currency_field. intros (a & Ha & Hv)%then_validator_inr.
  unfold validate_currency_code in Hv. case_match; [|done].
  injection Hv as <-. unfold fail in Ha. case_match; [|done]. by injection Ha as <-.
Qed.

Lemma currency_field_inl v es : currency_field v = inl es -> es <> [].
Proof.
  unfold currency_field. intros [Hv|(a & e & _ & _ & ->)]%then_validator_inl; [|done].
  unfold fail in Hv. case_match; [done|]. by injection Hv as <-.
Qed.

Lemma validate_PriceSchema_inr obj p : validate_PriceSchema obj = inr p -> p = obj.
Proof.
  unfold validate_PriceSchema.
  destruct (amount_field (amount obj)) as [|a] eqn:Ea; [done|].
  destruct (currency_field (currency obj)) as [|c] eqn:Ec; [done|].
  apply amount_field_inr in Ea as ->. apply currency_field_inr in Ec as ->.
  intros [= <-]. by destruct obj.
Qed.

Lemma validate_PriceSchema_inl obj es : validate_PriceSchema obj = inl es -> es <> [].
Proof.
  unfold validate_PriceSchema.
  destruct (amount_field (amount obj)) as [ea|a] eqn:Ea.
  - apply amount_field_inl in Ea. intros [= <-]. simpl. by destruct ea.
  - destruct (currency_field (currency obj)) as [ec|c] eqn:Ec; [|done].
    apply currency_field_inl in Ec. by intros [= <-].
Qed.

Lemma dimension_field_inr loc v v' : dimension_field loc v = inr v' -> v' = v.
Proof. unfold dimension_field, fail. case_match; [|done]. by intros [= <-]. Qed.

Lemma dimension_field_inl loc v es : dimension_field loc v = inl es -> es <> [].
Proof. unfold dimension_field, fail. case_match; [done|]. by intros [= <-]. Qed.

Lemma validate_DimensionsSchema_inr obj d : validate_DimensionsSchema obj = inr d -> d = obj.
Proof.
  unfold validate_DimensionsSchema.
  destruct (dimension_field "width" (width obj)) as [|w] eqn:Ew; [done|].
  destruct (dimension_field "height" (height obj)) as [|h] eqn:Eh; [done|].
  destruct (dimension_field "depth" (depth obj)) as [|d'] eqn:Ed; [done|].
  apply dimension_field_inr in Ew as ->. apply dimension_field_inr in Eh as ->.
  apply dimension_field_inr in Ed as ->.
  case_match; [|done]. intros [= <-]. by destruct obj.
Qed.

Lemma validate_DimensionsSchema_inl obj es : validate_DimensionsSchema obj = inl es -> es <> [].
Proof.
  unfold validate_DimensionsSchema.
  destruct (dimension_field "width" (width obj)) as [ew|w] eqn:Ew.
  { apply dimension_field_inl in Ew. intros [= <-]. simpl. by destruct ew. }
  destruct (dimension_field "height" (height obj)) as [eh|h] eqn:Eh.
  { apply dimension_field_inl in Eh. intros [= <-]. simpl. by destruct eh. }
  destruct (dimension_field "depth" (depth obj)) as [ed|d] eqn:Ed.
  { apply dimension_field_inl in Ed. intros [= <-]. simpl. by destruct ed. }
  case_match; [done|]. by intros [= <-].
Qed.

Lemma validate_ImageSchema_inr `{Libraries} obj img :
  validate_ImageSchema obj = inr img ->
  alt_text img = alt_text obj /\ validate_ImageSchema img = inr img.
Proof.
  unfold validate_ImageSchema.
  destruct (HttpUrl (url obj)) as [u|] eqn:Eu; [|by case_match].
  destruct (constr_length "alt_text" (Some 1) 100 (alt_text obj)) as [|a] eqn:Ea; [done|].
  apply constr_length_inr in Ea as [-> Ea]. intros [= <-]. simpl.
  by rewrite (HttpUrl_validated _ _ Eu), Ea.
Qed.

Lemma validate_ImageSchema_inl `{Libraries} obj es :
  validate_ImageSchema obj = inl es -> es <> [].
Proof.
  unfold validate_ImageSchema, fail.
  destruct (HttpUrl (url obj)) as [u|] eqn:Eu.
  - destruct (constr_length "alt_text" (Some 1) 100 (alt_text obj)) as [ea|a] eqn:Ea; [|done].
    apply constr_length_inl in Ea. by intros [= <-].
  - simpl. by intros [= <-].
Qed.

(** ** The fields of a product *)

Lemma reports_nil {A} (v : Validated A) :
  reports v -> errors_of v = [] -> exists a, v = inr a.
Proof. destruct v as [es|a]; [|eauto]. intros Hv Hes. by destruct (Hv es). Qed.

Lemma reports_under {A} loc (v : Validated A) : reports v -> reports (under loc v).
Proof. intros Hv es (es' & -> & Hes)%under_inl. apply Hes. by apply Hv. Qed.

Lemma reports_optional {A} (f : A -> Validated A) v :
  (forall a, reports (f a)) -> reports (validate_optional f v).
Proof. intros Hf es (a & -> & Ha)%validate_optional_inl. by eapply Hf. Qed.

Lemma reports_then {A} loc (v : Validated A) f : reports v -> reports (then_validator loc v f).
Proof.
  intros Hv es [->|(a & e & _ & _ & ->)]%then_validator_inl; [by apply Hv|done].
Qed.

Lemma reports_items {A} (f : A -> Validated A) i l :
  (forall a, reports (f a)) -> reports (validate_items f i l).
Proof. intros Hf es. apply validate_items_inl. intros x es'. apply Hf. Qed.

Lemma reports_name_field v : reports (name_field v).
Proof. intros es. apply constr_length_inl. Qed.

Lemma reports_sku_field v : reports (sku_field v).
Proof. intros es. unfold sku_field, fail. case_match; [done|]. by intros [= <-]. Qed.

Lemma reports_description_field v : reports (description_field v).
Proof. apply reports_optional. intros a es. apply constr_length_inl. Qed.

Lemma reports_price_field v : reports (price_field v).
Proof. apply reports_under. intros es. apply validate_PriceSchema_inl. Qed.

Lemma reports_dimensions_field v : reports (dimensions_field v).
Proof.
  apply reports_optional. intros a. apply reports_under. intros es.
  apply validate_DimensionsSchema_inl.
Qed.

Lemma reports_images_field `{Libraries} v : reports (images_field v).
Proof.
  apply reports_optional. intros a. apply reports_under, reports_items.
  intros img es. apply validate_ImageSchema_inl.
Qed.

Lemma reports_category_id_field v : reports (category_id_field v).
Proof.
  apply reports_optional. intros a es. unfold fail. case_match; [done|]. by intros [= <-].
Qed.

Lemma sku_field_inr v v' : sku_field v = inr v' -> v' = v.
Proof. unfold sku_field, fail. case_match; [|done]. by intros [= <-]. Qed.

Lemma description_field_inr v v' : description_field v = inr v' -> v' = v.
Proof.
  intros Hv%validate_optional_inr. destruct v, v'; try done.
  by apply constr_length_inr in Hv as [-> _].
Qed.

Lemma price_field_inr v v' : price_field v = inr v' -> v' = v.
Proof. unfold price_field. rewrite under_inr. apply validate_PriceSchema_inr. Qed.

Lemma dimensions_field_inr v v' : dimensions_field v = inr v' -> v' = v.
Proof.
  intros Hv%validate_optional_inr. destruct v, v'; try done.
  apply under_inr in Hv. by apply validate_DimensionsSchema_inr in Hv as ->.
Qed.

Lemma category_id_field_inr v v' : category_id_field v = inr v' -> v' = v.
Proof.
  intros Hv%validate_optional_inr. destruct v, v'; try done.
  unfold fail in Hv. case_match; [|done]. by injection Hv as <-.
Qed.

(** Images that passed pass again unchanged, and a list keeps its length. *)
Lemma images_field_inr `{Libraries} v v' :
  images_field v = inr v' ->
  images_field v' = inr v'
  /\ match v, v' with
     | None, None => True
     | Some l, Some l' => length l' = length l
     | _, _ => False
     end.
Proof.
  intros Hv%validate_optional_inr. destruct v as [l|], v' as [l'|]; try done.
  apply under_inr in Hv. split.
  - unfold images_field. simpl.
    erewrite validate_items_again; [done| |exact Hv].
    intros x y Hx. by apply validate_ImageSchema_inr in Hx as [_ Hy].
  - apply validate_items_inr in Hv. symmetry. by eapply Forall2_length.
Qed.

(** ** Structural validation of a request body *)

Section ProductCreate_facts.
Context `{Builtins} `{Libraries} `{Backend}.

Lemma reports_name_create_field v : reports (name_create_field v).
Proof. apply reports_then, reports_name_field. Qed.

Lemma reports_tags_create_field v : reports (tags_create_field v).
Proof.
  apply reports_then, reports_under, reports_items. intros t es.
  destruct (validate_tags t); [|done]. by intros [= <-].
Qed.

Lemma root_error_nil e : root_error e = [] <-> e = None.
Proof. by destruct e. Qed.

(** An accepted body: every field passed, with the value the model holds,
    and the root validator raised nothing. *)
Lemma validate_ProductCreate_inr body p :
  validate_ProductCreate body = inr p ->
  name_create_field (name body) = inr (name p)
  /\ sku_field (sku body) = inr (sku p)
  /\ description_field (description body) = inr (description p)
  /\ price_field (price body) = inr (price p)
  /\ tags_create_field (tags body) = inr (tags p)
  /\ dimensions_field (dimensions body) = inr (dimensions p)
  /\ images_field (images body) = inr (images p)
  /\ in_stock p = in_stock body
  /\ category_id_field (category_id body) = inr (category_id p)
  /\ validate_business_rules (ProductCreate_values body) = None.
Proof.
  unfold validate_ProductCreate.
  destruct (ProductCreate_errors body) eqn:Ee; [|done].
  destruct (from_values (ProductCreate_values body)) as [q|] eqn:Ev; [|done].
  intros [= ->]. apply app_nil in Ee as [_ Er%root_error_nil].
  unfold from_values, ProductCreate_values in Ev. simpl in Ev.
  destruct (name_create_field (name body)); [done|].
  destruct (sku_field (sku body)); [done|].
  destruct (description_field (description body)); [done|].
  destruct (price_field (price body)); [done|].
  destruct (tags_create_field (tags body)); [done|].
  destruct (dimensions_field (dimensions body)); [done|].
  destruct (images_field (images body)); [done|].
  destruct (category_id_field (category_id body)); [done|].
  simpl in Ev. by injection Ev as <-.
Qed.

(** A refused body: the errors are those of the fields and of the root
    validator, and there is at least one. *)
Lemma validate_ProductCreate_inl body errors :
  validate_ProductCreate body = inl errors ->
  errors = ProductCreate_errors body /\ errors <> [].
Proof.
  unfold validate_ProductCreate.
  destruct (ProductCreate_errors body) as [|e es] eqn:Ee; [|by intros [= <-]].
  destruct (from_values (ProductCreate_values body)) as [q|] eqn:Ev; [done|].
  exfalso. apply app_nil in Ee as [Ef _].
  unfold ProductCreate_field_errors in Ef.
  repeat (apply app_nil in Ef as [?%reports_nil Ef]);
    [| (apply reports_name_create_field || apply reports_sku_field
        || apply reports_description_field || apply reports_price_field
        || apply reports_tags_create_field || apply reports_dimensions_field
        || apply reports_images_field) ..].
  apply reports_nil in Ef; [|apply reports_category_id_field].
  unfold from_values, ProductCreate_values in Ev. simpl in Ev.
  repeat match goal with
         | Hx : exists _, _ = inr _ |- _ => destruct Hx as [? Hx]; rewrite Hx in Ev
         end.
  done.
Qed.

(** Either of the two makes a body refused. *)
Lemma validate_ProductCreate_refuses body :
  ProductCreate_errors body <> [] \/ from_values (ProductCreate_values body) = None ->
  exists errors, validate_ProductCreate body = inl errors /\ errors <> [].
Proof.
  intros Hno. destruct (validate_ProductCreate body) as [errors|p] eqn:Ep.
  - exists errors. split; [done|]. by apply validate_ProductCreate_inl in Ep as [_ ?].
  - exfalso. unfold validate_ProductCreate in Ep.
    destruct (ProductCreate_errors body); [|done].
    destruct (from_values (ProductCreate_values body)); [|done].
    by destruct Hno.
Qed.

End ProductCreate_facts.

(** ** The stock and price rule *)

Section Root_rules.
Context `{Builtins} `{Libraries} `{Backend}.

Lemma from_values_no_price body es :
  price_field (price body) = inl es -> from_values (ProductCreate_values body) = None.
Proof.
  intros Ep. unfold from_values, ProductCreate_values. simpl. rewrite Ep. simpl.
  destruct (value_of (name_create_field _)); [simpl|done].
  destruct (value_of (sku_field _)); [simpl|done].
  by destruct (value_of (description_field _)).
Qed.

Lemma root_error_refuses body e :
  validate_business_rules (ProductCreate_values body) = Some e ->
  ProductCreate_errors body <> [] /\ (["__root__"], e) ∈ ProductCreate_errors body.
Proof.
  intros He. unfold ProductCreate_errors. rewrite He. simpl. split.
  - intros [_ [=]]%app_nil.
  - apply elem_of_app. right. by apply list_elem_of_singleton.
Qed.

(** C5.  A body with [in_stock = false] and [price.amount > 1000] is refused
    by structural validation, so the request is answered 422 and the session
    is left as it was; when the price itself is valid the error reported is
    the one of this rule.  With [in_stock = false] and an amount of at most
    1000 the root validator does not raise this rule's error. *)
Theorem C5_out_of_stock_price_rule (body : ProductBase) :
  in_stock body = false ->
  (Decimal_gt (amount (price body)) 1000 = true ->
     exists errors,
       validate_ProductCreate body = inl errors /\ errors <> []
       /\ (forall db now, POST_products db now body = (RequestValidationError errors, db))
       /\ (forall p, price_field (price body) = inr p ->
             (["__root__"], stock_price_error) ∈ errors))
  /\ (Decimal_gt (amount (price body)) 1000 = false ->
     validate_business_rules (ProductCreate_values body) <> Some stock_price_error).
Proof.
  intros Hstock. split; intros Hgt.
  - destruct (price_field (price body)) as [es|p] eqn:Ep.
    + destruct (validate_ProductCreate_refuses body) as (errors & Hv & Hne).
      { right. by eapply from_values_no_price. }
      exists errors. repeat split; [done..| |done].
      intros db now. unfold POST_products. by rewrite Hv.
    + assert (validate_business_rules (ProductCreate_values body) = Some stock_price_error)
        as [Hne Hin]%root_error_refuses.
      { unfold validate_business_rules, ProductCreate_values. simpl.
        rewrite Ep, Hstock. simpl. apply price_field_inr in Ep as ->.
        by rewrite Hgt. }
      destruct (validate_ProductCreate_refuses body) as (errors & Hv & _); [by left|].
      exists errors. pose proof Hv as [-> _]%validate_ProductCreate_inl.
      repeat split; [done..| |done].
      intros db now. unfold POST_products. by rewrite Hv.
  - unfold validate_business_rules, ProductCreate_values. simpl. rewrite Hstock. simpl.
    destruct (price_field (price body)) as [es|p] eqn:Ep; simpl.
    + repeat case_match; discriminate.
    + apply price_field_inr in Ep as ->. rewrite Hgt.
      repeat case_match; discriminate.
Qed.

End Root_rules.

(** ** The volume and image rule *)

Section Large_products.
Context `{Builtins} `{Libraries} `{Backend}.

Lemma from_values_inv values p :
  from_values values = Some p ->
  v_name values = Some (name p) /\ v_sku values = Some (sku p)
  /\ v_description values = Some (description p) /\ v_price values = Some (price p)
  /\ v_tags values = Some (tags p) /\ v_dimensions values = Some (dimensions p)
  /\ v_images values = Some (images p) /\ v_in_stock values = Some (in_stock p)
  /\ v_category_id values = Some (category_id p).
Proof.
  unfold from_values. destruct values as [[] [] [] [] [] [] [] [] []]; simpl; try done.
  by intros [= <-].
Qed.

Lemma from_values_no_dimensions body es :
  dimensions_field (dimensions body) = inl es ->
  from_values (ProductCreate_values body) = None.
Proof.
  intros Ed. destruct (from_values (ProductCreate_values body)) as [p|] eqn:Ep; [|done].
  apply from_values_inv in Ep as (_ & _ & _ & _ & _ & Hd & _).
  simpl in Hd. by rewrite Ed in Hd.
Qed.

(** C6, as the code has it.  A body whose dimensions are present, with a
    computed volume above 100000 and an empty or absent image list, is
    refused by structural validation, and the request is answered 422 with the
    session left as it was.  When the volume does not exceed 100000, or when
    the image list passed its own validation and holds at least one image,
    the root validator does not raise this rule's error. *)
Theorem C6_large_product_rule (body : ProductBase) (d : DimensionsSchema) :
  dimensions body = Some d ->
  (PrimFloat.ltb 100000%float (volume d) = true ->
   images body = None \/ images body = Some [] ->
     exists errors,
       validate_ProductCreate body = inl errors /\ errors <> []
       /\ forall db now, POST_products db now body = (RequestValidationError errors, db))
  /\ (PrimFloat.ltb 100000%float (volume d) = false
      \/ (exists img imgs, images_field (images body) = inr (Some (img :: imgs))) ->
     validate_business_rules (ProductCreate_values body) <> Some large_product_error).
Proof.
  intros Hd. split.
  - intros Hvol Himg.
    assert (exists errors, validate_ProductCreate body = inl errors /\ errors <> [])
      as (errors & Hv & Hne).
    { apply validate_ProductCreate_refuses.
      destruct (dimensions_field (dimensions body)) as [es|d'] eqn:Ed.
      { right. by eapply from_values_no_dimensions. }
      left. pose proof Ed as ->%dimensions_field_inr.
      assert (exists e, validate_business_rules (ProductCreate_values body) = Some e)
        as [e [? _]%root_error_refuses]; [|done].
      unfold validate_business_rules, ProductCreate_values. simpl.
      rewrite Ed, Hd. simpl. rewrite Hvol.
      case_match; [eauto|].
      destruct Himg as [-> | ->]; simpl; eauto. }
    exists errors. repeat split; [done..|].
    intros db now. unfold POST_products. by rewrite Hv.
  - intros Hok. unfold validate_business_rules, ProductCreate_values. simpl.
    case_match; [discriminate|].
    destruct (dimensions_field (dimensions body)) as [es|d'] eqn:Ed; simpl; [done|].
    pose proof Ed as ->%dimensions_field_inr. rewrite Hd. simpl.
    destruct Hok as [-> | (img & imgs & ->)]; simpl; [done|].
    by rewrite andb_false_r.
Qed.

End Large_products.

(** ** Tags *)

Lemma remove_dups_length_le {A} `{EqDecision A} (l : list A) :
  (length (remove_dups l) <= length l)%nat.
Proof. induction l as [|x l IH]; simpl; [done|]. case_decide; simpl; lia. Qed.

Lemma remove_dups_length_NoDup {A} `{EqDecision A} (l : list A) :
  length (remove_dups l) = length l -> NoDup l.
Proof.
  induction l as [|x l IH]; simpl; [constructor|].
  pose proof (remove_dups_length_le l). case_decide; simpl; [lia|].
  intros [= Hl]. constructor; auto.
Qed.

Section Tags.
Context `{Builtins} `{Libraries} `{Backend}.

Lemma validate_tags_inr t t' : validate_tags t = inr t' -> t' = normalized_tag t.
Proof. unfold validate_tags. repeat case_match; try done. by intros [= <-]. Qed.

Lemma validate_tags_inl t :
  len (str_strip t) = 0 \/ 30 < len t -> exists e, validate_tags t = inl e.
Proof.
  unfold validate_tags. intros [Hempty|Hlong].
  - rewrite Hempty. rewrite orb_true_r. eauto.
  - case_match; [eauto|]. apply Z.ltb_lt in Hlong as ->. eauto.
Qed.

Lemma validate_tags_uniqueness_inr v v' :
  validate_tags_uniqueness v = inr v' -> v' = v /\ NoDup v /\ len v <= 10.
Proof.
  unfold validate_tags_uniqueness.
  destruct (len v =? len (remove_dups v)) eqn:Hdup; simpl; [|done].
  destruct (10 <? len v) eqn:Hmax; [done|]. intros [= <-].
  apply Z.eqb_eq in Hdup. apply Z.ltb_ge in Hmax. unfold len in Hdup.
  repeat split; [|done]. apply remove_dups_length_NoDup. lia.
Qed.

Lemma tags_create_field_inr l l' :
  tags_create_field l = inr l' ->
  l' = normalized_tag <$> l
  /\ Forall (fun t => validate_tags t = inr (normalized_tag t)) l
  /\ NoDup l' /\ len l' <= 10.
Proof.
  unfold tags_create_field.
  intros (a & Ha%under_inr & (-> & Hnodup & Hmax)%validate_tags_uniqueness_inr)%then_validator_inr.
  apply validate_items_inr in Ha.
  assert (a = normalized_tag <$> l
          /\ Forall (fun t => validate_tags t = inr (normalized_tag t)) l) as [-> ?]; [|done].
  clear Hnodup Hmax. induction Ha as [|t t' l l' Ht _ [-> IH]]; [done|].
  destruct (validate_tags t) as [|t''] eqn:Et; [done|]. injection Ht as ->.
  apply validate_tags_inr in Et as Ht'. subst t'. split; [done|]. by constructor.
Qed.

Lemma from_values_no_tags body es :
  tags_create_field (tags body) = inl es -> from_values (ProductCreate_values body) = None.
Proof.
  intros Et. destruct (from_values (ProductCreate_values body)) as [p|] eqn:Ep; [|done].
  apply from_values_inv in Ep as (_ & _ & _ & _ & Ht & _).
  simpl in Ht. by rewrite Et in Ht.
Qed.

(** C7.  A tag that is empty after stripping, or longer than 30 characters,
    is refused, and the body with it; an accepted tag is the stripped tag in
    lower case, so the tags of an accepted body are the normalised tags of the
    request; a list with duplicates after normalisation, or with more than 10
    entries, makes the body refused. *)
Theorem C7_tag_validation (body : ProductBase) :
  (forall t, t ∈ tags body -> len (str_strip t) = 0 \/ 30 < len t ->
     (exists e, validate_tags t = inl e)
     /\ exists errors, validate_ProductCreate body = inl errors /\ errors <> [])
  /\ (forall t t', validate_tags t = inr t' -> t' = str_lower (str_strip t))
  /\ (forall p, validate_ProductCreate body = inr p ->
        tags p = (fun t => str_lower (str_strip t)) <$> tags body)
  /\ (~ NoDup ((fun t => str_lower (str_strip t)) <$> tags body) \/ 10 < len (tags body) ->
        exists errors, validate_ProductCreate body = inl errors /\ errors <> []).
Proof.
  split; [|split; [|split]].
  - intros t Ht Hbad. destruct (validate_tags_inl t Hbad) as [e He]. split; [eauto|].
    apply validate_ProductCreate_refuses. right.
    destruct (tags_create_field (tags body)) as [es|l'] eqn:El.
    { by eapply from_values_no_tags. }
    apply tags_create_field_inr in El as (_ & Hall & _).
    rewrite Forall_forall in Hall. specialize (Hall t Ht). congruence.
  - intros t t'. apply validate_tags_inr.
  - intros p (_ & _ & _ & _ & Ht & _)%validate_ProductCreate_inr.
    by apply tags_create_field_inr in Ht as [-> _].
  - intros Hbad. apply validate_ProductCreate_refuses. right.
    destruct (tags_create_field (tags body)) as [es|l'] eqn:El.
    { by eapply from_values_no_tags. }
    apply tags_create_field_inr in El as (-> & _ & Hnodup & Hmax).
    destruct Hbad as [Hdup|Hlong]; [done|].
    unfold len in Hmax, Hlong. rewrite length_fmap in Hmax. lia.
Qed.

End Tags.

(** ** Business validation *)

Lemma query_first_None {A} (P : A -> bool) rows :
  query_first P rows = None <-> forall x, x ∈ rows -> P x = false.
Proof.
  unfold query_first. split.
  - intros Hnone x Hx%list_elem_of_In. by eapply find_none.
  - intros Hall. destruct (find P rows) as [x|] eqn:Ex; [|done].
    apply find_some in Ex as [Hx%list_elem_of_In HP]. rewrite (Hall x Hx) in HP. done.
Qed.

Lemma query_first_Some {A} (P : A -> bool) rows x :
  x ∈ rows -> P x = true -> exists y, query_first P rows = Some y.
Proof.
  intros Hx HP. destruct (query_first P rows) as [y|] eqn:Ey; [eauto|].
  rewrite query_first_None in Ey. rewrite (Ey x Hx) in HP. done.
Qed.

(** The mapping is empty exactly when neither the SKU nor the name is stored. *)
Lemma validate_business_constraints_empty db product_data :
  ValidationService.validate_business_constraints db product_data = ∅ <->
  (forall q, q ∈ products db -> models.product.sku q <> sku product_data)
  /\ (forall q, q ∈ products db -> models.product.name q <> name product_data).
Proof.
  unfold ValidationService.validate_business_constraints.
  destruct (query_first (fun p => bool_decide (models.product.sku p = _)) (products db))
    as [q1|] eqn:E1;
    destruct (query_first (fun p => bool_decide (models.product.name p = _)) (products db))
      as [q2|] eqn:E2.
  - split; [intros Hm; by apply insert_non_empty in Hm|].
    intros [_ Hname]. apply find_some in E2 as [Hq%list_elem_of_In Heq].
    apply bool_decide_eq_true in Heq. by destruct (Hname q2 Hq).
  - split; [intros Hm; by apply insert_non_empty in Hm|].
    intros [Hsku _]. apply find_some in E1 as [Hq%list_elem_of_In Heq].
    apply bool_decide_eq_true in Heq. by destruct (Hsku q1 Hq).
  - split; [intros Hm; by apply insert_non_empty in Hm|].
    intros [_ Hname]. apply find_some in E2 as [Hq%list_elem_of_In Heq].
    apply bool_decide_eq_true in Heq. by destruct (Hname q2 Hq).
  - split; [intros _|done]. rewrite query_first_None in E1, E2.
    split; intros q Hq Heq.
    + specialize (E1 q Hq). by apply bool_decide_eq_false in E1.
    + specialize (E2 q Hq). by apply bool_decide_eq_false in E2.
Qed.

(** A stored SKU is reported under [sku], a stored name under [name]. *)
Lemma validate_business_constraints_sku db product_data q :
  q ∈ products db -> models.product.sku q = sku product_data ->
  ValidationService.validate_business_constraints db product_data !! "sku"
  = Some "SKU ya existe en el sistema".
Proof.
  intros Hq Heq. unfold ValidationService.validate_business_constraints.
  destruct (query_first_Some
              (fun p => bool_decide (models.product.sku p = sku product_data))
              (products db) q Hq) as [y ->]; [by apply bool_decide_eq_true|].
  case_match; [|by rewrite lookup_insert_eq].
  rewrite lookup_insert_ne by done. by rewrite lookup_insert_eq.
Qed.

Lemma validate_business_constraints_name db product_data q :
  q ∈ products db -> models.product.name q = name product_data ->
  ValidationService.validate_business_constraints db product_data !! "name"
  = Some "Ya existe un producto con este nombre".
Proof.
  intros Hq Heq. unfold ValidationService.validate_business_constraints.
  destruct (query_first_Some
              (fun p => bool_decide (models.product.name p = name product_data))
              (products db) q Hq) as [y ->]; [by apply bool_decide_eq_true|].
  by rewrite lookup_insert_eq.
Qed.

(** ** Amounts and the [DECIMAL(10, 2)] column *)

(** The text of a positive number has as many characters as the number has
    decimal digits. *)
Lemma pretty_N_go_digits (x : N) (s : string) :
  (0 < x)%N ->
  exists k : nat,
    (10 ^ N.of_nat k <= x < 10 ^ N.of_nat (S k))%N
    /\ String.length (pretty_N_go x s) = (S k + String.length s)%nat.
Proof.
  revert s. induction (N.lt_wf_0 x) as [x _ IH]. intros s Hx.
  rewrite pretty_N_go_step by done.
  pose proof (N.div_mod x 10 ltac:(done)) as Hdiv.
  pose proof (N.mod_lt x 10 ltac:(done)) as Hmod.
  destruct (decide (x < 10)%N) as [Hsmall|Hbig].
  - exists 0%nat. rewrite N.div_small by done. rewrite pretty_N_go_0. simpl.
    split; [|done]. change (10 ^ 1)%N with 10%N. change (10 ^ 0)%N with 1%N. lia.
  - assert (0 < x `div` 10)%N as Hq by (apply N.div_str_pos; lia).
    destruct (IH (x `div` 10)%N ltac:(apply N.div_lt; lia)
                 (String (pretty_N_char (x `mod` 10)) s) Hq)
      as (k & [Hlo Hhi] & Hlen).
    exists (S k). rewrite Hlen. simpl. split; [|lia].
    rewrite !Nat2N.inj_succ, !N.pow_succ_r' in *.
    generalize dependent (10 ^ N.of_nat k)%N. generalize dependent (x `mod` 10)%N.
    generalize dependent (x `div` 10)%N. intros. lia.
Qed.

Lemma length_list_ascii_of_string s :
  length (list_ascii_of_string s) = String.length s.
Proof. induction s as [|a s IH]; simpl; [done|]. by rewrite IH. Qed.

Lemma Decimal_digits_bounds d :
  0 < coefficient d ->
  1 <= Decimal_digits d
  /\ 10 ^ (Decimal_digits d - 1) <= coefficient d < 10 ^ Decimal_digits d.
Proof.
  intros Hc. unfold Decimal_digits, len. rewrite length_list_ascii_of_string.
  unfold pretty, pretty_N. rewrite decide_False by lia.
  destruct (pretty_N_go_digits (Z.abs_N (coefficient d)) "" ltac:(lia))
    as (k & [Hlo Hhi] & ->).
  simpl String.length. rewrite Nat.add_0_r.
  apply N2Z.inj_le in Hlo. apply N2Z.inj_lt in Hhi.
  rewrite N2Z.inj_pow in Hlo, Hhi. rewrite N2Z.inj_abs_N, Z.abs_eq in Hlo, Hhi by lia.
  rewrite nat_N_Z in Hlo, Hhi.
  replace (Z.of_nat (S k) - 1) with (Z.of_nat k) by lia.
  split; [lia|]. done.
Qed.

(** What [amount_field] lets through: a positive amount with at most two
    places after the point and at most eight digits before it. *)
Lemma amount_field_accepts v v' :
  amount_field v = inr v' ->
  0 < coefficient v /\ - 2 <= exponent v
  /\ coefficient v * 10 ^ (exponent v + 2) < 10 ^ 10.
Proof.
  unfold amount_field, fail, Decimal_gt. cbv zeta.
  repeat (case_match; try discriminate); intros _;
    repeat match goal with
           | Hb : (_ <? _) = _ |- _ => first [apply Z.ltb_lt in Hb | apply Z.ltb_ge in Hb]
           | Hb : (_ <=? _) = _ |- _ => first [apply Z.leb_le in Hb | apply Z.leb_gt in Hb]
           | Hb : negb _ = false |- _ => apply negb_false_iff in Hb
           end.
  all: assert (0 < coefficient v) as Hc
         by (try (assert (0 <= 10 ^ exponent v) by (apply Z.pow_nonneg; lia)); nia).
  all: destruct (Decimal_digits_bounds v Hc) as (Hn & _ & Hhi).
  all: split; [done|]; split; [lia|].
  all: assert (0 < 10 ^ (exponent v + 2)) by (apply Z.pow_pos_nonneg; lia).
  all: apply Z.lt_le_trans with (10 ^ Decimal_digits v * 10 ^ (exponent v + 2)); [nia|].
  all: rewrite <- Z.pow_add_r by lia; apply Z.pow_le_mono_r; lia.
Qed.

(** The amount read back passes [amount_field] again. *)
Lemma amount_field_rescale v :
  amount_field v = inr v ->
  amount_field (Decimal_rescale 2 v) = inr (Decimal_rescale 2 v).
Proof.
  intros (Hc & He & Hfit)%amount_field_accepts.
  assert (0 < 10 ^ (exponent v + 2)) by (apply Z.pow_pos_nonneg; lia).
  assert (0 < coefficient (Decimal_rescale 2 v)) as Hc' by (simpl; nia).
  destruct (Decimal_digits_bounds _ Hc') as (Hn & Hlo & _).
  assert (Decimal_digits (Decimal_rescale 2 v) <= 10) as Hdigits.
  { destruct (decide (Decimal_digits (Decimal_rescale 2 v) <= 10)) as [|Hbig]; [done|].
    assert (10 ^ 10 <= 10 ^ (Decimal_digits (Decimal_rescale 2 v) - 1))
      by (apply Z.pow_le_mono_r; lia).
    simpl in Hlo. lia. }
  unfold amount_field, Decimal_gt. cbv zeta.
  set (n := Decimal_digits (Decimal_rescale 2 v)) in *.
  change (exponent (Decimal_rescale 2 v)) with (-2).
  change (0 <=? -2) with false. cbn [negb]. change (- -2) with 2.
  rewrite (proj2 (Z.ltb_lt (0 * 10 ^ 2) _)) by (simpl in Hc'; simpl; lia).
  cbn [negb]. destruct (n <? 2) eqn:Hn2.
  - done.
  - apply Z.ltb_ge in Hn2.
    rewrite (proj2 (Z.ltb_ge 10 n)) by lia. change (2 <? 2) with false.
    by rewrite (proj2 (Z.ltb_ge (10 - 2) (n - 2))) by lia.
Qed.

(** Written with two places, an amount with no more places than that is the
    same number: it compares alike with every integer. *)
Lemma Decimal_gt_rescale scale d n :
  0 <= scale -> - scale <= exponent d ->
  Decimal_gt (Decimal_rescale scale d) n = Decimal_gt d n.
Proof.
  intros Hs He. unfold Decimal_gt, Decimal_rescale. simpl.
  rewrite Z.opp_involutive.
  assert (0 < 10 ^ scale) by (apply Z.pow_pos_nonneg; lia).
  destruct (decide (scale = 0)) as [->|Hscale].
  { rewrite Z.add_0_r. change (- 0) with 0. change (0 <=? 0) with true.
    rewrite (proj2 (Z.leb_le 0 (exponent d))) by lia. simpl. by rewrite Z.mul_1_r. }
  rewrite (proj2 (Z.leb_gt 0 (- scale))) by lia.
  destruct (0 <=? exponent d) eqn:Hpos.
  - apply Z.leb_le in Hpos. rewrite Z.pow_add_r by lia.
    assert (0 < 10 ^ exponent d) by (apply Z.pow_pos_nonneg; lia).
    destruct (n <? coefficient d * 10 ^ exponent d) eqn:E.
    + apply Z.ltb_lt in E. apply Z.ltb_lt. nia.
    + apply Z.ltb_ge in E. apply Z.ltb_ge. nia.
  - apply Z.leb_gt in Hpos.
    replace scale with ((exponent d + scale) + - exponent d) at 1 by lia.
    rewrite Z.pow_add_r by lia.
    assert (0 < 10 ^ (exponent d + scale)) by (apply Z.pow_pos_nonneg; lia).
    destruct (n * 10 ^ (- exponent d) <? coefficient d) eqn:E.
    + apply Z.ltb_lt in E. apply Z.ltb_lt. nia.
    + apply Z.ltb_ge in E. apply Z.ltb_ge. nia.
Qed.

Lemma Decimal_eq_rescale scale d :
  - scale <= exponent d -> Decimal_eq (Decimal_rescale scale d) d.
Proof.
  intros He. unfold Decimal_eq, Decimal_rescale. simpl.
  rewrite Z.min_l by lia. rewrite Z.sub_diag, Z.mul_1_r.
  by replace (exponent d - - scale) with (exponent d + scale) by lia.
Qed.

(** ** Persistence *)

Lemma existsb_sku_false rows s :
  existsb (fun q => bool_decide (models.product.sku q = s)) rows = false <->
  forall q, q ∈ rows -> models.product.sku q <> s.
Proof.
  split.
  - intros Hno q Hq%list_elem_of_In Heq.
    assert (existsb (fun q => bool_decide (models.product.sku q = s)) rows = true); [|congruence].
    apply existsb_exists. exists q. split; [done|]. by apply bool_decide_eq_true.
  - intros Hall. destruct (existsb _ rows) eqn:E; [|done].
    apply existsb_exists in E as (q & Hq%list_elem_of_In & Heq%bool_decide_eq_true).
    by destruct (Hall q Hq).
Qed.

Section Persistence.
Context `{Builtins} `{Libraries} `{Backend}.

Lemma accepted_amount body p :
  validate_ProductCreate body = inr p ->
  amount_field (amount (price p)) = inr (amount (price p)).
Proof.
  intros (_ & _ & _ & Hprice & _)%validate_ProductCreate_inr.
  pose proof Hprice as E%price_field_inr. rewrite <- E in Hprice.
  unfold price_field in Hprice. apply under_inr in Hprice.
  unfold validate_PriceSchema in Hprice.
  destruct (amount_field (amount (price p))) as [|a] eqn:Ea; [done|].
  by pose proof (amount_field_inr _ _ Ea) as ->.
Qed.

(** The amount of an accepted body fits the column, which gives it back
    written with two places. *)
Lemma accepted_amount_is_read_back body p :
  validate_ProductCreate body = inr p ->
  reads_DECIMAL 10 2 (amount (price p)) = Some (Decimal_rescale 2 (amount (price p))).
Proof.
  intros Hv.
  destruct (amount_field_accepts _ _ (accepted_amount body p Hv)) as (Hc & He & Hfit).
  apply reads_DECIMAL_exact; [lia|lia|]. by rewrite Z.abs_eq by lia.
Qed.

(** What is read back keeps the key it was given, and the SKU and the name
    of the object that was added. *)
Lemma refreshed_Some key now p row :
  refreshed key now p = Some row ->
  models.product.id row = Some key
  /\ models.product.sku row = models.product.sku p
  /\ models.product.name row = models.product.name p.
Proof.
  unfold refreshed.
  match goal with |- (if ?b then _ else _) = _ -> _ => destruct b end; [|done].
  destruct (reads_DECIMAL _ _ _); [|done]. by intros [= <-].
Qed.

(** The row read back for an accepted body, column by column. *)
Lemma refreshed_accepted body p key now row :
  validate_ProductCreate body = inr p ->
  refreshed key now (ProductService.db_product p) = Some row ->
  row = {| models.product.id := Some key;
           models.product.name := name p;
           models.product.sku := sku p;
           models.product.description := description p;
           models.product.price_amount := Decimal_rescale 2 (amount (price p));
           models.product.price_currency := currency (price p);
           models.product.tags := Some (tags p);
           models.product.dimensions := dimensions p;
           models.product.images :=
             Some (match images p with Some (img :: imgs) => img :: imgs | _ => [] end);
           models.product.in_stock := in_stock p;
           models.product.category_id := category_id p;
           models.product.created_at := Some now;
           models.product.updated_at := None |}.
Proof.
  intros Hv. unfold refreshed.
  match goal with |- (if ?b then _ else _) = _ -> _ => destruct b end; [|done].
  change (models.product.price_amount (ProductService.db_product p))
    with (amount (price p)).
  rewrite (accepted_amount_is_read_back body p Hv). by intros [= <-].
Qed.

(** Every inherited field of an accepted body passes again when the response
    is built, the name apart: it was measured before it was stripped and
    title-cased. *)
Lemma validate_ProductBase_again body p :
  validate_ProductCreate body = inr p ->
  name_field (name p) = inr (name p) ->
  validate_ProductBase (response_fields p) = inr (response_fields p).
Proof.
  intros Hv Hname. pose proof (accepted_amount body p Hv) as Hamount%amount_field_rescale.
  apply validate_ProductCreate_inr
    in Hv as (_ & Hsku & Hdesc & Hprice & _ & Hdim & Himg & _ & Hcat & _).
  pose proof Hsku as Esku%sku_field_inr. rewrite <- Esku in Hsku.
  pose proof Hdesc as Edesc%description_field_inr. rewrite <- Edesc in Hdesc.
  pose proof Hprice as Eprice%price_field_inr. rewrite <- Eprice in Hprice.
  pose proof Hdim as Edim%dimensions_field_inr. rewrite <- Edim in Hdim.
  pose proof Hcat as Ecat%category_id_field_inr. rewrite <- Ecat in Hcat.
  apply images_field_inr in Himg as [Himg _].
  assert (images_field (images (response_fields p)) = inr (images (response_fields p)))
    as Himg'.
  { simpl. destruct (images p) as [[|img imgs]|]; done. }
  assert (price_field (price (response_fields p)) = inr (price (response_fields p)))
    as Hprice'.
  { unfold price_field in *. apply under_inr in Hprice. apply under_inr.
    unfold validate_PriceSchema in *. simpl. rewrite Hamount.
    destruct (amount_field (amount (price p))); [done|].
    destruct (currency_field (currency (price p))) as [|c] eqn:Ec; [done|].
    by pose proof (currency_field_inr _ _ Ec) as ->. }
  unfold validate_ProductBase. rewrite Himg', Hprice'. simpl.
  rewrite Hname, Hsku, Hdesc, Hdim, Hcat. simpl. done.
Qed.

(** The response built for the row of an accepted body. *)
Lemma _to_response_stored body p key now row :
  validate_ProductCreate body = inr p ->
  refreshed key now (ProductService.db_product p) = Some row ->
  ProductService._to_response row
  = match validate_ProductBase (response_fields p) with
    | inr b => inr {| id := key; base := b; created_at := now; updated_at := None |}
    | inl errors => inl (ValidationError errors)
    end.
Proof.
  intros Hv Hrow. rewrite (refreshed_accepted body p key now row Hv Hrow).
  unfold ProductService._to_response, response_fields. simpl.
  destruct (validate_ProductBase _); simpl; [|done].
  by rewrite app_nil_r.
Qed.

(** A row the backend holds, with a SKU that is not stored yet, is stored,
    whatever becomes of the response. *)
Lemma service_create_product_stores db now product_data row :
  (forall q, q ∈ products db -> models.product.sku q <> sku product_data) ->
  refreshed (next_id (products db)) now (ProductService.db_product product_data) = Some row ->
  ProductService.create_product db now product_data
  = (ProductService._to_response row,
     {| users := users db; products := products db ++ [row] |}).
Proof.
  intros Hfresh%existsb_sku_false Hrow.
  unfold ProductService.create_product, add_commit_refresh. cbv zeta. rewrite Hrow.
  change (models.product.sku (ProductService.db_product product_data))
    with (sku product_data).
  by rewrite Hfresh.
Qed.

(** A value that does not fit its column makes the commit raise, and the
    table stays as it was. *)
Lemma service_create_product_refused db now product_data :
  refreshed (next_id (products db)) now (ProductService.db_product product_data) = None ->
  ProductService.create_product db now product_data = (inl DataError, db).
Proof.
  intros Hrow. unfold ProductService.create_product, add_commit_refresh. cbv zeta.
  by rewrite Hrow.
Qed.

(** A stored SKU is refused by the table, which stays as it was. *)
Lemma service_create_product_conflict db now product_data q :
  q ∈ products db -> models.product.sku q = sku product_data ->
  exists exc, ProductService.create_product db now product_data = (inl exc, db).
Proof.
  intros Hq Heq. unfold ProductService.create_product, add_commit_refresh. cbv zeta.
  destruct (refreshed _ _ _); [|eauto].
  destruct (existsb _ (products db)) eqn:E; [eauto|].
  rewrite existsb_sku_false in E. by destruct (E q Hq).
Qed.

End Persistence.

(** ** The create handler *)

Section Create.
Context `{Builtins} `{Libraries} `{Backend}.

Lemma create_product_refused db now product_data :
  ValidationService.validate_business_constraints db product_data <> ∅ ->
  endpoints.create_product db now product_data
  = (inl (business_validation_failed
            (ValidationService.validate_business_constraints db product_data)), db).
Proof.
  intros Hne. unfold endpoints.create_product.
  by rewrite bool_decide_eq_true_2.
Qed.

Lemma create_product_persists db now product_data row :
  ValidationService.validate_business_constraints db product_data = ∅ ->
  refreshed (next_id (products db)) now (ProductService.db_product product_data) = Some row ->
  endpoints.create_product db now product_data
  = (match ProductService._to_response row with
     | inr product => inr product
     | inl _ => inl {| status_code := 500; detail := Text "Error interno del servidor";
                       headers := [] |}
     end, {| users := users db; products := products db ++ [row] |}).
Proof.
  intros Hempty Hrow. pose proof Hempty as [Hsku _]%validate_business_constraints_empty.
  unfold endpoints.create_product. rewrite bool_decide_eq_false_2 by (by intros []).
  rewrite (service_create_product_stores db now product_data row Hsku Hrow).
  by destruct (ProductService._to_response row).
Qed.

Lemma create_product_not_stored db now product_data :
  ValidationService.validate_business_constraints db product_data = ∅ ->
  refreshed (next_id (products db)) now (ProductService.db_product product_data) = None ->
  endpoints.create_product db now product_data
  = (inl {| status_code := 500; detail := Text "Error interno del servidor";
            headers := [] |}, db).
Proof.
  intros Hempty Hrow.
  unfold endpoints.create_product. rewrite bool_decide_eq_false_2 by (by intros []).
  by rewrite (service_create_product_refused db now product_data Hrow).
Qed.

(** The handler leaves the session as it was, or appends the one row that
    was read back, and this only after an empty mapping. *)
Lemma create_product_session db now product_data :
  snd (endpoints.create_product db now product_data) = db
  \/ exists row,
       ValidationService.validate_business_constraints db product_data = ∅
       /\ refreshed (next_id (products db)) now (ProductService.db_product product_data)
          = Some row
       /\ snd (endpoints.create_product db now product_data)
          = {| users := users db; products := products db ++ [row] |}.
Proof.
  destruct (decide (ValidationService.validate_business_constraints db product_data = ∅))
    as [Hempty|Hne]; [|left; by rewrite create_product_refused].
  destruct (refreshed (next_id (products db)) now (ProductService.db_product product_data))
    as [row|] eqn:Hrow.
  - right. exists row. by rewrite (create_product_persists db now product_data row).
  - left. by rewrite create_product_not_stored.
Qed.

Lemma POST_products_session db now body :
  snd (POST_products db now body) = db
  \/ exists p row,
       validate_ProductCreate body = inr p
       /\ ValidationService.validate_business_constraints db p = ∅
       /\ refreshed (next_id (products db)) now (ProductService.db_product p) = Some row
       /\ snd (POST_products db now body)
          = {| users := users db; products := products db ++ [row] |}.
Proof.
  unfold POST_products.
  destruct (validate_ProductCreate body) as [errors|p] eqn:Hv; [by left|].
  destruct (create_product_session db now p) as [Hdb|(row & Hempty & Hrow & Hdb)].
  - left. by destruct (endpoints.create_product db now p) as [[e|product] db'].
  - right. exists p, row. repeat split; [done..|].
    by destruct (endpoints.create_product db now p) as [[e|product] db'].
Qed.

(** The whole request, for a body that is accepted, not stored yet, whose
    normalised name still has its 3 to 100 characters and whose row the
    backend holds. *)
Lemma POST_products_created db now body p row :
  validate_ProductCreate body = inr p ->
  ValidationService.validate_business_constraints db p = ∅ ->
  name_field (name p) = inr (name p) ->
  refreshed (next_id (products db)) now (ProductService.db_product p) = Some row ->
  POST_products db now body
  = (Created {| id := next_id (products db); base := response_fields p;
                created_at := now; updated_at := None |},
     {| users := users db; products := products db ++ [row] |}).
Proof.
  intros Hv Hempty Hname Hrow.
  unfold POST_products. rewrite Hv, (create_product_persists db now p row Hempty Hrow).
  rewrite (_to_response_stored body p _ now row Hv Hrow).
  by rewrite (validate_ProductBase_again body p Hv Hname).
Qed.

Lemma POST_products_refused db now body p :
  validate_ProductCreate body = inr p ->
  ValidationService.validate_business_constraints db p <> ∅ ->
  POST_products db now body
  = (Failed (business_validation_failed
               (ValidationService.validate_business_constraints db p)), db).
Proof.
  intros Hv Hne. unfold POST_products. by rewrite Hv, create_product_refused.
Qed.


End Create.

(** ** Uniqueness of SKUs and names *)

Section Uniqueness.
Context `{Builtins} `{Libraries} `{Backend}.

Lemma unique_products_snoc db row :
  unique_products db ->
  (forall q, q ∈ products db -> models.product.sku q <> models.product.sku row) ->
  (forall q, q ∈ products db -> models.product.name q <> models.product.name row) ->
  unique_products {| users := users db; products := products db ++ [row] |}.
Proof.
  intros [Hsku Hname] Hs Hn. unfold unique_products. simpl. rewrite !fmap_app. simpl.
  split; apply NoDup_app; (split; [done|]); (split; [|apply NoDup_singleton]).
  - intros s (q & -> & Hq)%list_elem_of_fmap Heq%list_elem_of_singleton. by apply (Hs q).
  - intros n (q & -> & Hq)%list_elem_of_fmap Heq%list_elem_of_singleton. by apply (Hn q).
Qed.

(** The handler stores nothing, or one row whose SKU and name were free. *)
Lemma create_product_unique db now product_data :
  unique_products db ->
  unique_products (snd (endpoints.create_product db now product_data)).
Proof.
  intros Hdb.
  destruct (create_product_session db now product_data)
    as [->|(row & Hempty & (_ & Es & En)%refreshed_Some & ->)]; [done|].
  apply validate_business_constraints_empty in Hempty as [Hs Hn].
  apply unique_products_snoc; [done|rewrite Es|rewrite En]; auto.
Qed.

Lemma POST_products_unique db now body :
  unique_products db -> unique_products (snd (POST_products db now body)).
Proof.
  intros Hdb. unfold POST_products.
  destruct (validate_ProductCreate body) as [errors|p]; [done|].
  pose proof (create_product_unique db now p Hdb) as Hp.
  by destruct (endpoints.create_product db now p) as [[e|product] db'].
Qed.

(** C2.  Starting from a state in which all SKUs are distinct and all names
    are distinct, any sequence of create requests served one after the other
    ends in such a state. *)
Theorem C2_sku_and_name_stay_unique (db : Session) (requests : list (Z * ProductBase)) :
  unique_products db -> unique_products (snd (serve db requests)).
Proof.
  revert db. induction requests as [|[now body] rest IH]; intros db Hdb; [done|].
  simpl. pose proof (POST_products_unique db now body Hdb) as Hstep.
  destruct (POST_products db now body) as [r db'].
  specialize (IH db' Hstep). by destruct (serve db' rest) as [rs db''].
Qed.

End Uniqueness.

(** ** The validate handler *)

Section Validate.
Context `{Builtins} `{Libraries}.

(** C8.  Validation without creation leaves the session as it was, so a
    second call with the same input on the state the first one left returns
    the same response: the same error mapping and the same [valid] flag.
    This holds for the handler and for the whole request. *)
Theorem C8_validate_is_idempotent
    (db : Session) (product_data body : ProductBase) :
  (let '(r1, db1) := endpoints.validate_product db product_data in
   let '(r2, db2) := endpoints.validate_product db1 product_data in
   db1 = db /\ db2 = db /\ r1 = r2
   /\ errors r1 = errors r2 /\ valid r1 = valid r2)
  /\ (let '(r1, db1) := POST_products_validate db body in
      let '(r2, db2) := POST_products_validate db1 body in
      db1 = db /\ db2 = db /\ r1 = r2).
Proof.
  split.
  - done.
  - unfold POST_products_validate.
    by destruct (validate_ProductCreate body) as [errs|p].
Qed.

End Validate.

(** ** The product name *)

Section Names.
Context `{Builtins} `{Libraries} `{Backend}.

Lemma name_create_field_inr v v' :
  name_create_field v = inr v' ->
  v' = str_title (str_strip v) /\ str_strip (str_lower v) ∉ forbidden_words.
Proof.
  unfold name_create_field.
  intros (a & Ha & Hv)%then_validator_inr.
  unfold name_field in Ha. apply constr_length_inr in Ha as [-> _].
  unfold validate_name in Hv. case_bool_decide; [done|]. by injection Hv as <-.
Qed.

Lemma from_values_no_name body es :
  name_create_field (name body) = inl es -> from_values (ProductCreate_values body) = None.
Proof.
  intros En. destruct (from_values (ProductCreate_values body)) as [p|] eqn:Ep; [|done].
  apply from_values_inv in Ep as (Hn & _). simpl in Hn. by rewrite En in Hn.
Qed.

(** C10.  A body whose name, lowered and stripped, is one of the generic
    words is refused by structural validation.  The name of an accepted body
    is the submitted name stripped and title-cased, and it is this name that
    the uniqueness check compares with the stored ones and that a stored row
    carries. *)
Theorem C10_name_is_normalised_first (body : ProductBase) :
  (str_strip (str_lower (name body)) ∈ forbidden_words ->
     exists errors, validate_ProductCreate body = inl errors /\ errors <> [])
  /\ (forall p, validate_ProductCreate body = inr p ->
        name p = str_title (str_strip (name body)))
  /\ (forall db now q p,
        validate_ProductCreate body = inr p ->
        q ∈ products db ->
        models.product.name q = str_title (str_strip (name body)) ->
        exists errors,
          POST_products db now body
          = (Failed {| status_code := 422;
                       detail := BusinessErrors "Errores de validación de negocio" errors;
                       headers := [] |}, db)
          /\ errors !! "name" = Some "Ya existe un producto con este nombre")
  /\ (forall db now,
        snd (POST_products db now body) = db
        \/ exists row,
             snd (POST_products db now body)
             = {| users := users db; products := products db ++ [row] |}
             /\ models.product.name row = str_title (str_strip (name body))).
Proof.
  assert (forall p, validate_ProductCreate body = inr p ->
            name p = str_title (str_strip (name body))) as Hnorm.
  { intros p (Hn & _)%validate_ProductCreate_inr.
    by apply name_create_field_inr in Hn as [-> _]. }
  split; [|split; [done|split]].
  - intros Hgeneric. apply validate_ProductCreate_refuses. right.
    destruct (name_create_field (name body)) as [es|v'] eqn:En.
    { by eapply from_values_no_name. }
    by apply name_create_field_inr in En as [_ Hno].
  - intros db now q p Hv Hq Hname.
    assert (ValidationService.validate_business_constraints db p !! "name"
            = Some "Ya existe un producto con este nombre") as Hdup.
    { apply validate_business_constraints_name with q; [done|].
      by rewrite (Hnorm p Hv). }
    eexists. split; [|exact Hdup].
    apply POST_products_refused; [done|]. intros Hnone. by rewrite Hnone in Hdup.
  - intros db now.
    destruct (POST_products_session db now body)
      as [->|(p & row & Hv & _ & (_ & _ & En)%refreshed_Some & ->)]; [by left|].
    right. exists row. split; [done|]. rewrite En. apply (Hnorm p Hv).
Qed.

End Names.

(** ** What create returns *)

Section Round_trip.
Context `{Builtins} `{Libraries} `{Backend}.


End Round_trip.

(** ** The rate limiter *)

Section Rate_limit.
Implicit Types redis_client : gmap string Counter.

Lemma redis_get_Some redis_client now key n :
  redis_get redis_client now key = Some n <->
  exists c, redis_client !! key = Some c /\ live now c = true /\ value c = n.
Proof.
  unfold redis_get. destruct (redis_client !! key) as [c|]; simpl.
  - destruct (live now c) eqn:Hlive; split.
    + intros [= <-]. exists c. by rewrite Hlive.
    + by intros (c' & [= <-] & _ & <-).
    + done.
    + intros (c' & [= <-] & Hc & _). congruence.
  - split; [done|]. by intros (c & ? & _).
Qed.

Lemma rate_limit_first max_requests window_minutes request_ip redis_client now :
  redis_get redis_client now ("rate_limit:" +:+ request_ip) = None ->
  0 < window_minutes ->
  deps.rate_limit max_requests window_minutes request_ip redis_client now
  = (inr true,
     <["rate_limit:" +:+ request_ip :=
         {| value := 1; expires_at := Some (now + window_minutes * 60) |}]> redis_client).
Proof.
  intros Hnone Hpos. unfold deps.rate_limit, redis_setex. rewrite Hnone.
  by rewrite (proj2 (Z.leb_gt _ _)) by lia.
Qed.

Lemma rate_limit_below max_requests window_minutes request_ip redis_client now c :
  redis_client !! ("rate_limit:" +:+ request_ip) = Some c ->
  live now c = true ->
  value c < max_requests ->
  deps.rate_limit max_requests window_minutes request_ip redis_client now
  = (inr true,
     <["rate_limit:" +:+ request_ip :=
         {| value := value c + 1; expires_at := expires_at c |}]> redis_client).
Proof.
  intros Hc Hlive Hlt. unfold deps.rate_limit, redis_get, redis_incr. rewrite Hc. simpl.
  rewrite Hlive. by rewrite (proj2 (Z.leb_gt _ _)) by lia.
Qed.

Lemma rate_limit_reached max_requests window_minutes request_ip redis_client now n :
  redis_get redis_client now ("rate_limit:" +:+ request_ip) = Some n ->
  max_requests <= n ->
  deps.rate_limit max_requests window_minutes request_ip redis_client now
  = (inl (HTTPError (too_many_requests max_requests window_minutes)), redis_client).
Proof.
  intros Hn Hle. unfold deps.rate_limit. rewrite Hn.
  by rewrite (proj2 (Z.leb_le _ _)) by lia.
Qed.

(** C3.  For a request from [request_ip] arriving at [now]: without a live
    counter under [rate_limit:<ip>] one is created with value 1 and a
    time-to-live of the window (in seconds), and the request is allowed; with
    a counter below the maximum the counter is incremented, its expiry and
    every other key kept, and the request is allowed; with a counter at or
    above the maximum the request fails with 429, whose text reports the
    maximum and the window, and the store is left as it was.  With a maximum
    of 2 and a window of 1 minute, the third of three requests arriving within
    the window of the first fails with 429. *)
Theorem C3_rate_limit_is_fixed_window
    (max_requests window_minutes : Z) (request_ip : string)
    (redis_client : gmap string Counter) (now : Z) :
  let key := "rate_limit:" +:+ request_ip in
  (redis_get redis_client now key = None -> 0 < window_minutes ->
     deps.rate_limit max_requests window_minutes request_ip redis_client now
     = (inr true,
        <[key := {| value := 1; expires_at := Some (now + window_minutes * 60) |}]>
          redis_client))
  /\ (forall n, redis_get redis_client now key = Some n -> n < max_requests ->
        exists r,
          deps.rate_limit max_requests window_minutes request_ip redis_client now
          = (inr true, r)
          /\ redis_get r now key = Some (n + 1)
          /\ expires_at <$> r !! key = expires_at <$> redis_client !! key
          /\ forall k, k <> key -> r !! k = redis_client !! k)
  /\ (forall n, redis_get redis_client now key = Some n -> max_requests <= n ->
        deps.rate_limit max_requests window_minutes request_ip redis_client now
        = (inl (HTTPError
                  {| status_code := 429;
                     detail := Text ("Rate limit excedido. Máximo " +:+ pretty max_requests
                                     +:+ " requests por " +:+ pretty window_minutes
                                     +:+ " minutos");
                     headers := [] |}), redis_client))
  /\ (forall t2 t3,
        redis_get redis_client now key = None ->
        now <= t2 -> t2 <= t3 -> t3 < now + 60 ->
        exists r1 r2 e,
          deps.rate_limit 2 1 request_ip redis_client now = (inr true, r1)
          /\ deps.rate_limit 2 1 request_ip r1 t2 = (inr true, r2)
          /\ deps.rate_limit 2 1 request_ip r2 t3 = (inl (HTTPError e), r2)
          /\ status_code e = 429).
Proof.
  cbv zeta. split; [|split; [|split]].
  - apply rate_limit_first.
  - intros n (c & Hc & Hlive & <-)%redis_get_Some Hlt.
    eexists. split; [by apply rate_limit_below|]. split; [|split].
    + apply redis_get_Some. eexists. split; [apply lookup_insert_eq|]. done.
    + by rewrite lookup_insert_eq, Hc.
    + intros k Hk. by rewrite lookup_insert_ne.
  - intros n Hn Hle. by apply (rate_limit_reached _ _ _ _ _ n).
  - intros t2 t3 Hnone H12 H23 Hwin.
    eexists _, _, _. split; [by apply rate_limit_first|]. split; [|split].
    + eapply rate_limit_below; [apply lookup_insert_eq| |done].
      unfold live. simpl. apply Z.ltb_lt. lia.
    + apply (rate_limit_reached _ _ _ _ _ 2); [|done].
      apply redis_get_Some. eexists. split; [apply lookup_insert_eq|].
      split; [|done]. unfold live. simpl. apply Z.ltb_lt. lia.
    + done.
Qed.

End Rate_limit.

(** ** The authentication tiers *)

Section Authentication.
Context `{Builtins} `{Libraries}.
Variable settings : Settings.

Lemma Depends_inr {A B} (dep : list Event * (Exception + A)) (f : A -> Exception + B) b :
  snd (deps.Depends dep f) = inr b <-> exists a, snd dep = inr a /\ f a = inr b.
Proof.
  unfold deps.Depends. simpl. destruct (snd dep) as [e|a].
  - split; [done|]. by intros (a & [=] & _).
  - split; [eauto|]. by intros (a' & [= <-] & Ha).
Qed.

Lemma Depends_inl {A B} (dep : list Event * (Exception + A)) (f : A -> Exception + B) e :
  snd (deps.Depends dep f) = inl e <->
  snd dep = inl e \/ exists a, snd dep = inr a /\ f a = inl e.
Proof.
  unfold deps.Depends. simpl. destruct (snd dep) as [e'|a].
  - split; [intros [= <-]; by left|]. intros [[= <-]|(a & [=] & _)]. done.
  - split; [intros He; right; eauto|]. intros [[=]|(a' & [= <-] & Ha)]. done.
Qed.

(** The only failures of [get_current_user] are the 401 and the uncaught
    [ValueError] of [int]. *)
Lemma CurrentUser_failure db credentials e :
  snd (deps.CurrentUser settings db credentials) = inl e ->
  e = HTTPError deps.credentials_exception \/ e = IntValueError.
Proof.
  unfold deps.CurrentUser, deps.get_current_user.
  repeat case_match; simpl; intros [= <-]; auto.
Qed.

Lemma CurrentUser_decodes_once db credentials :
  decodes (fst (deps.CurrentUser settings db credentials)) = 1%nat.
Proof.
  unfold deps.CurrentUser, deps.get_current_user. by repeat case_match.
Qed.


End Authentication.

(** ** What a create request can be answered *)

Section Create_outcomes.
Context `{Builtins} `{Libraries} `{Backend}.

Lemma name_field_cases v :
  (3 <= len v <= 100 /\ name_field v = inr v)
  \/ (~ 3 <= len v <= 100 /\ exists es, name_field v = inl es).
Proof.
  unfold name_field, constr_length, fail.
  destruct (len v <? 3) eqn:Hlo; [right; split; [lia|eauto]|].
  destruct (100 <? len v) eqn:Hhi; [right; split; [lia|eauto]|].
  left. split; [lia|done].
Qed.

(** A name outside 3 to 100 characters fails the response, whatever the
    other fields are. *)
Lemma validate_ProductBase_bad_name obj es :
  name_field (name obj) = inl es -> exists errors, validate_ProductBase obj = inl errors.
Proof.
  intros Hn. unfold validate_ProductBase. rewrite Hn. simpl.
  match goal with |- context [match ?e with [] => _ | _ :: _ => _ end] => destruct e end;
    eauto.
Qed.

(** Once business validation passed and the row was stored, the answer is
    201 or 500 by the length of the normalised name alone. *)
Lemma POST_products_stored db now body p row :
  validate_ProductCreate body = inr p ->
  ValidationService.validate_business_constraints db p = ∅ ->
  refreshed (next_id (products db)) now (ProductService.db_product p) = Some row ->
  snd (POST_products db now body)
  = {| users := users db; products := products db ++ [row] |}
  /\ (3 <= len (name p) <= 100 ->
      fst (POST_products db now body)
      = Created {| id := next_id (products db); base := response_fields p;
                   created_at := now; updated_at := None |})
  /\ (~ 3 <= len (name p) <= 100 ->
      fst (POST_products db now body)
      = Failed {| status_code := 500; detail := Text "Error interno del servidor";
                  headers := [] |}).
Proof.
  intros Hv Hempty Hrow.
  unfold POST_products. rewrite Hv, (create_product_persists db now p row Hempty Hrow).
  rewrite (_to_response_stored body p _ now row Hv Hrow).
  destruct (name_field_cases (name p)) as [[Hlen Hn]|[Hlen [es Hn]]].
  - rewrite (validate_ProductBase_again body p Hv Hn). by repeat split.
  - destruct (validate_ProductBase_bad_name (response_fields p) es Hn) as [errors ->].
    by repeat split.
Qed.

(** When the backend does not hold the row, the commit raises: nothing is
    stored and the answer is 500. *)
Lemma POST_products_not_stored db now body p :
  validate_ProductCreate body = inr p ->
  ValidationService.validate_business_constraints db p = ∅ ->
  refreshed (next_id (products db)) now (ProductService.db_product p) = None ->
  POST_products db now body
  = (Failed {| status_code := 500; detail := Text "Error interno del servidor";
               headers := [] |}, db).
Proof.
  intros Hv Hempty Hrow. unfold POST_products.
  by rewrite Hv, (create_product_not_stored db now p Hempty Hrow).
Qed.

(** The name is measured before it is stripped and title-cased, and measured
    again when the response is built: an accepted body whose normalised name
    is left with fewer than 3 (or more than 100) characters is answered 500,
    and its row is stored all the same whenever the backend holds it. *)
Theorem accepted_name_out_of_range_is_answered_500
    (db : Session) (now : Z) (body p : ProductBase) :
  validate_ProductCreate body = inr p ->
  ValidationService.validate_business_constraints db p = ∅ ->
  ~ 3 <= len (name p) <= 100 ->
  fst (POST_products db now body)
  = Failed {| status_code := 500; detail := Text "Error interno del servidor";
              headers := [] |}
  /\ (forall row,
        refreshed (next_id (products db)) now (ProductService.db_product p) = Some row ->
        snd (POST_products db now body)
        = {| users := users db; products := products db ++ [row] |}
        /\ models.product.sku row = sku p
        /\ models.product.name row = name p)
  /\ (refreshed (next_id (products db)) now (ProductService.db_product p) = None ->
      snd (POST_products db now body) = db).
Proof.
  intros Hv Hempty Hlen. repeat apply conj.
  - destruct (refreshed (next_id (products db)) now (ProductService.db_product p))
      as [row|] eqn:Hrow.
    + destruct (POST_products_stored db now body p row Hv Hempty Hrow) as (_ & _ & H500).
      by apply H500.
    + by rewrite (POST_products_not_stored db now body p Hv Hempty Hrow).
  - intros row Hrow.
    destruct (POST_products_stored db now body p row Hv Hempty Hrow) as (Hdb & _).
    by apply refreshed_Some in Hrow as (_ & ? & ?).
  - intros Hrow. by rewrite (POST_products_not_stored db now body p Hv Hempty Hrow).
Qed.



End Create_outcomes.

(** ** What validation without creation reports *)

Section Validate_reports.
Context `{Builtins} `{Libraries} `{Backend}.

Lemma query_first_is_Some {A} (P : A -> bool) rows :
  (exists y, query_first P rows = Some y) <-> exists x, x ∈ rows /\ P x = true.
Proof.
  split.
  - intros [y Hy]. apply find_some in Hy as [Hin%list_elem_of_In HP]. eauto.
  - intros (x & Hx & HP). by eapply query_first_Some.
Qed.

(** The mapping has the key [sku] exactly when the SKU is stored, the key
    [name] exactly when the name is, and no other key. *)
Lemma validate_business_constraints_lookup db product_data :
  let m := ValidationService.validate_business_constraints db product_data in
  (m !! "sku" = Some "SKU ya existe en el sistema" <-> sku_taken db product_data)
  /\ (m !! "sku" = None <-> ~ sku_taken db product_data)
  /\ (m !! "name" = Some "Ya existe un producto con este nombre"
      <-> name_taken db product_data)
  /\ (m !! "name" = None <-> ~ name_taken db product_data)
  /\ (forall k, k <> "sku" -> k <> "name" -> m !! k = None).
Proof.
  cbv zeta.
  assert (sku_taken db product_data <->
          exists y, query_first
            (fun p => bool_decide (models.product.sku p = sku product_data))
            (products db) = Some y) as Hs.
  { rewrite query_first_is_Some. unfold sku_taken.
    split; intros (q & Hq & Heq); exists q; split; try done.
    - by apply bool_decide_eq_true.
    - by apply bool_decide_eq_true in Heq. }
  assert (name_taken db product_data <->
          exists y, query_first
            (fun p => bool_decide (models.product.name p = name product_data))
            (products db) = Some y) as Hn.
  { rewrite query_first_is_Some. unfold name_taken.
    split; intros (q & Hq & Heq); exists q; split; try done.
    - by apply bool_decide_eq_true.
    - by apply bool_decide_eq_true in Heq. }
  rewrite Hs, Hn. unfold ValidationService.validate_business_constraints.
  destruct (query_first (fun p => bool_decide (models.product.sku p = _)) (products db))
    as [q1|];
    destruct (query_first (fun p => bool_decide (models.product.name p = _)) (products db))
      as [q2|];
    repeat split;
    repeat first
      [ progress rewrite lookup_insert_eq
      | rewrite lookup_insert_ne by done
      | rewrite lookup_empty ];
    try done; try (intros; eauto; fail);
    try (by intros [? [=]]); try (by intros Hno; destruct Hno; eauto);
    try (by intros _ [? [=]]);
    try (intros k ? ?; by rewrite ?lookup_insert_ne, ?lookup_empty by done).
Qed.



(** After a create request that stored a row, validating the same body
    reports both the SKU and the name as taken, and nothing else. *)
Theorem validate_after_create_reports_sku_and_name
    (db : Session) (now : Z) (body : ProductBase) :
  snd (POST_products db now body) <> db ->
  let db' := snd (POST_products db now body) in
  POST_products_validate db' body
  = (Validation
       {| valid := false;
          errors := Some (<["name" := "Ya existe un producto con este nombre"]>
                            (<["sku" := "SKU ya existe en el sistema"]> ∅));
          message := "Se encontraron errores" |}, db').
Proof.
  intros Hstored. cbv zeta.
  destruct (POST_products_session db now body)
    as [Hdb|(p & row & Hv & _ & (_ & Es & En)%refreshed_Some & Hdb)]; [done|].
  simpl in Es, En. rewrite Hdb.
  unfold POST_products_validate. rewrite Hv.
  unfold endpoints.validate_product, ValidationService.validate_business_constraints.
  set (db' := {| users := users db; products := products db ++ [row] |}).
  assert (row ∈ products db') as Hrow.
  { simpl. apply elem_of_app. right. by apply list_elem_of_singleton. }
  destruct (query_first_Some
              (fun q => bool_decide (models.product.sku q = sku p)) (products db') row Hrow)
    as [q1 ->]; [by apply bool_decide_eq_true|].
  destruct (query_first_Some
              (fun q => bool_decide (models.product.name q = name p)) (products db') row Hrow)
    as [q2 ->]; [by apply bool_decide_eq_true|].
  set (m := <["name" := _]> _).
  assert (m <> ∅) as Hne by apply insert_non_empty.
  rewrite (bool_decide_eq_false_2 (size m = 0%nat)); [|by rewrite map_size_empty_iff].
  by rewrite !(bool_decide_eq_true_2 (m <> ∅)) by done.
Qed.

End Validate_reports.

(** ** Reading products back *)

Lemma next_id_fresh rows q : q ∈ rows -> models.product.id q <> Some (next_id rows).
Proof.
  intros Hq Hid. unfold next_id in Hid.
  assert (default 0 (models.product.id q)
          <= foldr Z.max 0 ((fun p => default 0 (models.product.id p)) <$> rows)) as Hle.
  { clear Hid. induction rows as [|r rows IH]; [by apply not_elem_of_nil in Hq|].
    rewrite fmap_cons. cbn [foldr].
    apply elem_of_cons in Hq as [->|Hq]; [lia|]. specialize (IH Hq). lia. }
  destruct (models.product.id q) as [i|]; [|done]. simpl in Hle. injection Hid as ->. lia.
Qed.

Lemma query_first_app {A} (P : A -> bool) rows rows' :
  query_first P (rows ++ rows')
  = match query_first P rows with Some x => Some x | None => query_first P rows' end.
Proof.
  unfold query_first. induction rows as [|x rows IH]; simpl; [done|]. by destruct (P x).
Qed.

Lemma comprehension_app {A B} (f : A -> Exception + B) xs ys rx ry :
  comprehension f xs = inr rx -> comprehension f ys = inr ry ->
  comprehension f (xs ++ ys) = inr (rx ++ ry).
Proof.
  revert rx. induction xs as [|x xs IH]; intros rx; simpl.
  - by intros [= <-].
  - destruct (f x) as [|y]; [done|].
    destruct (comprehension f xs) as [|rs]; [done|].
    intros [= <-] Hy. by rewrite (IH rs eq_refl Hy).
Qed.

Lemma comprehension_length {A B} (f : A -> Exception + B) xs rs :
  comprehension f xs = inr rs -> length rs = length xs.
Proof.
  revert rs. induction xs as [|x xs IH]; intros rs; simpl; [by intros [= <-]|].
  destruct (f x) as [|y]; [done|].
  destruct (comprehension f xs) as [|rs']; [done|].
  intros [= <-]. simpl. by rewrite (IH rs').
Qed.

Lemma comprehension_raises {A B} (f : A -> Exception + B) xs x exc :
  x ∈ xs -> f x = inl exc -> exists exc', comprehension f xs = inl exc'.
Proof.
  intros Hx Hf. induction xs as [|y xs IH]; [by apply not_elem_of_nil in Hx|].
  simpl. apply elem_of_cons in Hx as [<-|Hx].
  - rewrite Hf. eauto.
  - destruct (f y); [eauto|]. destruct (IH Hx) as [exc' ->]. eauto.
Qed.

Lemma comprehension_inl {A B} (f : A -> Exception + B) xs exc :
  comprehension f xs = inl exc -> exists x, x ∈ xs /\ f x = inl exc.
Proof.
  induction xs as [|y xs IH]; simpl; [done|].
  destruct (f y) as [e|r] eqn:Ey.
  - intros [= <-]. exists y. split; [apply list_elem_of_here|done].
  - destruct (comprehension f xs) as [e|rs]; [|done].
    intros [= <-]. destruct (IH eq_refl) as (x & Hx & Hf).
    exists x. split; [by apply list_elem_of_further|done].
Qed.

Section Reading.
Context `{Builtins} `{Libraries} `{Backend}.

Lemma _to_response_failure row exc :
  ProductService._to_response row = inl exc -> exists errors, exc = ValidationError errors.
Proof.
  unfold ProductService._to_response. repeat case_match; try done; intros [= <-]; eauto.
Qed.

Lemma _to_response_bad_name row :
  ~ 3 <= len (models.product.name row) <= 100 ->
  exists errors, ProductService._to_response row = inl (ValidationError errors).
Proof.
  intros Hlen. destruct (name_field_cases (models.product.name row)) as [[? _]|[_ [es Hn]]];
    [done|].
  unfold ProductService._to_response.
  match goal with
  | |- context [validate_ProductBase ?obj] =>
      destruct (validate_ProductBase_bad_name obj es Hn) as [errors ->]
  end.
  repeat case_match; eauto.
Qed.

(** The product a create request answered with is the one found under its
    id afterwards. *)
Theorem created_product_is_found_by_its_id
    (db db' : Session) (now : Z) (body : ProductBase) (product : ProductResponse) :
  POST_products db now body = (Created product, db') ->
  GET_product db' (id product) = Ok200 product.
Proof.
  unfold POST_products.
  destruct (validate_ProductCreate body) as [errors|p] eqn:Hv; [done|].
  destruct (decide (ValidationService.validate_business_constraints db p = ∅))
    as [Hempty|Hne]; [|by rewrite create_product_refused].
  destruct (refreshed (next_id (products db)) now (ProductService.db_product p))
    as [row|] eqn:Hrow; [|by rewrite create_product_not_stored].
  rewrite (create_product_persists db now p row Hempty Hrow).
  pose proof (_to_response_stored body p _ now row Hv Hrow) as Hresp.
  apply refreshed_Some in Hrow as (Hid & _).
  destruct (ProductService._to_response row) as [exc|r] eqn:Hr; [done|].
  intros [= <- <-].
  assert (id r = next_id (products db)) as Hidr.
  { destruct (validate_ProductBase (response_fields p)); [done|]. by injection Hresp as ->. }
  unfold GET_product, endpoints.get_product, ProductService.get_product_by_id.
  simpl. rewrite query_first_app.
  assert (query_first (fun q => bool_decide (models.product.id q = Some (id r))) (products db)
          = None) as ->.
  { apply query_first_None. intros q Hq. apply bool_decide_eq_false. rewrite Hidr.
    by apply next_id_fresh. }
  unfold query_first. simpl. rewrite bool_decide_eq_true_2 by congruence. by rewrite Hr.
Qed.

(** [GET /{product_id}] is answered 404 exactly when no stored product has
    that id. *)
Theorem GET_product_not_found (db : Session) (product_id : Z) :
  GET_product db product_id
  = Raised {| status_code := 404; detail := Text "Producto no encontrado"; headers := [] |}
  <-> forall q, q ∈ products db -> models.product.id q <> Some product_id.
Proof.
  unfold GET_product, endpoints.get_product, ProductService.get_product_by_id.
  destruct (query_first _ (products db)) as [row|] eqn:Hq.
  - split.
    + destruct (ProductService._to_response row) as [exc|r] eqn:Hr; [|done].
      apply _to_response_failure in Hr as [errors ->]. done.
    + intros Hnone. apply find_some in Hq as [Hin%list_elem_of_In Heq%bool_decide_eq_true].
      by destruct (Hnone row Hin).
  - split; [intros _|done]. rewrite query_first_None in Hq.
    intros q Hin. specialize (Hq q Hin). by apply bool_decide_eq_false in Hq.
Qed.

(** A listing never holds more products than its [limit], so never more than
    100; when it succeeds it holds one product per row of its window. *)
Theorem GET_products_is_bounded
    (db : Session) (skip limit : option Z) (listed : list ProductResponse) :
  GET_products db skip limit = Ok200 listed ->
  Z.of_nat (length listed) <= default 100 limit <= 100
  /\ 0 <= default 0 skip
  /\ length listed
     = length (take (Z.to_nat (default 100 limit))
                 (drop (Z.to_nat (default 0 skip)) (products db))).
Proof.
  unfold GET_products, Query.
  destruct skip as [s|], limit as [l|]; simpl;
    repeat (case_match; try done); intros [= <-];
    match goal with
    | Hc : endpoints.get_products _ _ _ = inr _ |- _ =>
        apply comprehension_length in Hc; rewrite Hc
    end;
    simplify_eq;
    repeat match goal with Hb : (_ <? _) = false |- _ => apply Z.ltb_ge in Hb end;
    rewrite ?length_take; repeat split; lia.
Qed.

(** The windows of [validate_pagination] tile the offsets: with a page size
    of at least 1, page 1 starts at offset 0, every page starts where the one
    before it ends, and every offset lies in the window of exactly one page,
    the page [offset / size + 1]. *)
Theorem pages_partition_the_offsets (size offset : Z) :
  1 <= size -> 0 <= offset ->
  let window page :=
    let p := deps.validate_pagination page size in
    pagination.skip p <= offset < pagination.skip p + pagination.limit p in
  pagination.skip (deps.validate_pagination 1 size) = 0
  /\ (forall page,
        pagination.skip (deps.validate_pagination (page + 1) size)
        = pagination.skip (deps.validate_pagination page size)
          + pagination.limit (deps.validate_pagination page size))
  /\ 1 <= offset / size + 1
  /\ window (offset / size + 1)
  /\ (forall page, window page -> page = offset / size + 1).
Proof.
  intros Hsize Hoffset. cbv zeta. unfold deps.validate_pagination. simpl.
  pose proof (Z.div_mod offset size ltac:(lia)) as Hdiv.
  pose proof (Z.mod_pos_bound offset size ltac:(lia)) as Hmod.
  pose proof (Z.div_pos offset size Hoffset ltac:(lia)) as Hq.
  generalize dependent (offset `mod` size). generalize dependent (offset / size).
  intros q Hq r Hdiv Hmod. repeat apply conj; first [lia | nia].
Qed.

(** One stored product whose name is out of range takes down every listing
    whose window holds it, and the request for its id: building its response
    raises, and no handler catches it. *)
Theorem product_with_name_out_of_range_breaks_reading
    (db : Session) (i : nat) (row : Product) (skip limit : Z) :
  products db !! i = Some row ->
  ~ 3 <= len (models.product.name row) <= 100 ->
  0 <= skip -> 1 <= limit <= 100 ->
  (Z.to_nat skip <= i < Z.to_nat skip + Z.to_nat limit)%nat ->
  (exists errors,
     GET_products db (Some skip) (Some limit) = Unhandled (ValidationError errors))
  /\ (forall product_id,
        query_first (fun p => bool_decide (models.product.id p = Some product_id))
          (products db) = Some row ->
        exists errors, GET_product db product_id = Unhandled (ValidationError errors)).
Proof.
  intros Hi Hlen Hskip Hlimit Hwin.
  destruct (_to_response_bad_name row Hlen) as [errors Hrow]. split.
  - unfold GET_products, Query.
    rewrite (proj2 (Z.ltb_ge _ _)) by lia. rewrite (proj2 (Z.ltb_ge _ _)) by lia.
    rewrite (proj2 (Z.ltb_ge _ _)) by lia.
    unfold endpoints.get_products, ProductService.get_products.
    assert (row ∈ take (Z.to_nat limit) (drop (Z.to_nat skip) (products db))) as Hin.
    { apply list_elem_of_lookup. exists (i - Z.to_nat skip)%nat.
      rewrite lookup_take_lt by lia. rewrite lookup_drop.
      by replace (Z.to_nat skip + (i - Z.to_nat skip))%nat with i by lia. }
    destruct (comprehension_raises _ _ _ _ Hin Hrow) as [exc Hexc]. rewrite Hexc.
    apply comprehension_inl in Hexc as (x & _ & Hx).
    apply _to_response_failure in Hx as [errors' ->]. eauto.
  - intros product_id Hq. exists errors.
    unfold GET_product, endpoints.get_product, ProductService.get_product_by_id.
    by rewrite Hq, Hrow.
Qed.

End Reading.

(** ** What is stored keeps the rules of the schema *)

Section Stored_rows.
Context `{Builtins} `{Libraries} `{Backend}.

(** The row a create request stores, column by column. *)
Lemma POST_products_row db now body :
  snd (POST_products db now body) = db
  \/ exists p row,
       validate_ProductCreate body = inr p
       /\ snd (POST_products db now body)
          = {| users := users db; products := products db ++ [row] |}
       /\ models.product.sku row = sku p
       /\ models.product.price_amount row = Decimal_rescale 2 (amount (price p))
       /\ models.product.price_currency row = currency (price p)
       /\ models.product.tags row = Some (tags p)
       /\ models.product.dimensions row = dimensions p
       /\ models.product.images row = Some (default [] (images p))
       /\ models.product.in_stock row = in_stock p.
Proof.
  destruct (POST_products_session db now body)
    as [->|(p & row & Hv & _ & Hrow & ->)]; [by left|].
  right. exists p, row.
  apply (refreshed_accepted body p _ now row Hv) in Hrow. subst row. simpl.
  repeat split; [done|]. by destruct (images p) as [[|img imgs]|].
Qed.

Lemma accepted_body_keeps_rules body p :
  validate_ProductCreate body = inr p ->
  (in_stock p = false -> Decimal_gt (amount (price p)) 1000 = false)
  /\ (forall d, dimensions p = Some d -> PrimFloat.ltb 100000%float (volume d) = true ->
        exists img imgs, images p = Some (img :: imgs))
  /\ NoDup (tags p) /\ len (tags p) <= 10
  /\ sku_regex (sku p) = true
  /\ currency (price p) ∈ valid_currencies.
Proof.
  intros (_ & Hsku & _ & Hprice & Htags & Hdim & Himg & Hstock & _ & Hroot)%validate_ProductCreate_inr.
  apply tags_create_field_inr in Htags as (_ & _ & Hnodup & Hmax).
  unfold validate_business_rules, ProductCreate_values in Hroot. simpl in Hroot.
  rewrite Hprice, Hdim, Himg, <- Hstock in Hroot. simpl in Hroot.
  repeat split; try done.
  - intros Hout. rewrite Hout in Hroot. simpl in Hroot.
    by destruct (Decimal_gt (amount (price p)) 1000).
  - intros d Hd Hvol. rewrite Hd in Hroot. simpl in Hroot. rewrite Hvol in Hroot.
    destruct (negb (in_stock p) && Decimal_gt (amount (price p)) 1000); [done|].
    destruct (images p) as [[|img imgs]|]; simpl in Hroot; try done. eauto.
  - unfold sku_field in Hsku. destruct (sku_regex (sku body)) eqn:E; [|done].
    by injection Hsku as <-.
  - unfold price_field in Hprice. apply under_inr in Hprice.
    unfold validate_PriceSchema in Hprice.
    destruct (amount_field _); [done|].
    destruct (currency_field (currency (price body))) as [|c] eqn:Ec; [done|].
    injection Hprice as <-. simpl.
    unfold currency_field in Ec. apply then_validator_inr in Ec as (a & _ & Hc).
    unfold validate_currency_code in Hc. case_bool_decide; [|done]. by injection Hc as <-.
Qed.

(** Every row a create request stores keeps the cross-field rules and the
    field rules of the schema; so a table that keeps them does so after any
    sequence of create requests. *)
Theorem stored_rows_keep_the_schema_rules (db : Session) (requests : list (Z * ProductBase)) :
  Forall row_keeps_rules (products db) ->
  Forall row_keeps_rules (products (snd (serve db requests))).
Proof.
  revert db. induction requests as [|[now body] rest IH]; intros db Hdb; [done|].
  simpl.
  assert (Forall row_keeps_rules (products (snd (POST_products db now body)))) as Hstep.
  { destruct (POST_products_row db now body)
      as [->|(p & row & Hv & -> & Es & Ea & Ec & Et & Ed & Ei & Eo)]; [done|].
    simpl. apply Forall_app. split; [done|]. apply Forall_singleton.
    destruct (accepted_body_keeps_rules body p Hv) as (Hr1 & Hr2 & Hn & Hm & Hs & Hc).
    destruct (amount_field_accepts _ _ (accepted_amount body p Hv)) as (_ & He & _).
    unfold row_keeps_rules. rewrite Es, Ea, Ec, Et, Ed, Ei, Eo.
    rewrite Decimal_gt_rescale by lia.
    repeat split; try done.
    - intros d Hd Hvol. destruct (Hr2 d Hd Hvol) as (img & imgs & ->). simpl. eauto.
    - match goal with Hts : Some _ = Some _ |- _ => by injection Hts as <- end.
    - match goal with Hts : Some _ = Some _ |- _ => by injection Hts as <- end. }
  destruct (POST_products db now body) as [r db']. simpl in Hstep.
  specialize (IH db' Hstep). by destruct (serve db' rest) as [rs db''].
Qed.

End Stored_rows.

(** ** The rate limiter over a window *)

Section Rate_limit_window.
Implicit Types redis_client : gmap string Counter.

Lemma rate_limit_run_live max_requests window_minutes request_ip redis_client c T times :
  redis_client !! ("rate_limit:" +:+ request_ip) = Some {| value := c; expires_at := Some T |} ->
  Forall (fun t => t < T) times ->
  fst (rate_limit_run max_requests window_minutes request_ip redis_client times)
  = imap (fun k _ => if Z.of_nat k + c <? max_requests then inr true
                     else inl (HTTPError (too_many_requests max_requests window_minutes)))
         times.
Proof.
  intros Hc Hall. revert redis_client c Hc.
  induction Hall as [|t times Ht _ IH]; intros redis_client c Hc; [done|].
  cbn [rate_limit_run]. rewrite imap_cons.
  assert (live t {| value := c; expires_at := Some T |} = true) as Hlive.
  { unfold live. simpl. by apply Z.ltb_lt. }
  destruct (c <? max_requests) eqn:Hlt.
  - apply Z.ltb_lt in Hlt.
    rewrite (rate_limit_below _ _ _ _ _ _ Hc Hlive) by done. simpl.
    specialize (IH (<["rate_limit:" +:+ request_ip :=
                       {| value := c + 1; expires_at := Some T |}]> redis_client)
                   (c + 1) (lookup_insert_eq _ _ _)).
    destruct (rate_limit_run _ _ _ _ times) as [rs r'']. simpl in *.
    rewrite (proj2 (Z.ltb_lt _ _)) by lia. f_equal. rewrite IH.
    apply imap_ext. intros k t' _. simpl.
    by replace (Z.of_nat k + (c + 1)) with (Z.of_nat (S k) + c) by lia.
  - apply Z.ltb_ge in Hlt.
    rewrite (rate_limit_reached _ _ _ _ _ c) by
      (first [lia | apply redis_get_Some; eexists; by repeat split]).
    specialize (IH redis_client c Hc).
    destruct (rate_limit_run _ _ _ _ times) as [rs r'']. simpl in *.
    rewrite (proj2 (Z.ltb_ge _ _)) by lia. f_equal. rewrite IH.
    apply imap_ext. intros k t' _. simpl.
    rewrite (proj2 (Z.ltb_ge (Z.of_nat k + c) _)) by lia.
    by rewrite (proj2 (Z.ltb_ge (Z.of_nat (S k) + c) _)) by lia.
Qed.

(** From a state without a live counter, the first request is allowed
    whatever the maximum is, and of the requests that follow within the
    window the one numbered [n] (the first being 1) is allowed exactly when
    [n <= max_requests]; every other one is answered 429. *)
Theorem rate_limit_allows_max_requests_per_window
    (max_requests window_minutes : Z) (request_ip : string)
    (redis_client : gmap string Counter) (now : Z) (times : list Z) :
  redis_get redis_client now ("rate_limit:" +:+ request_ip) = None ->
  0 < window_minutes ->
  Forall (fun t => t < now + window_minutes * 60) times ->
  fst (rate_limit_run max_requests window_minutes request_ip redis_client (now :: times))
  = inr true
    :: imap (fun k _ => if Z.of_nat k + 2 <=? max_requests then inr true
                        else inl (HTTPError (too_many_requests max_requests window_minutes)))
            times.
Proof.
  intros Hnone Hpos Hall. cbn [rate_limit_run].
  rewrite rate_limit_first by done.
  pose proof (rate_limit_run_live max_requests window_minutes request_ip
                (<["rate_limit:" +:+ request_ip :=
                    {| value := 1; expires_at := Some (now + window_minutes * 60) |}]>
                   redis_client) 1 _ times (lookup_insert_eq _ _ _) Hall) as Hrun.
  destruct (rate_limit_run _ _ _ _ times) as [rs r'']. simpl in *. f_equal.
  rewrite Hrun. apply imap_ext. intros k t _. simpl.
  destruct (Z.of_nat k + 1 <? max_requests) eqn:E.
  - apply Z.ltb_lt in E. by rewrite (proj2 (Z.leb_le _ _)) by lia.
  - apply Z.ltb_ge in E. by rewrite (proj2 (Z.leb_gt _ _)) by lia.
Qed.

(** Once the counter has expired the window starts again: the request is
    allowed whatever the count was, and the counter is back at 1 with a fresh
    time-to-live. *)
Theorem rate_limit_starts_again_after_expiry
    (max_requests window_minutes : Z) (request_ip : string)
    (redis_client : gmap string Counter) (now : Z) (c : Counter) (T : Z) :
  redis_client !! ("rate_limit:" +:+ request_ip) = Some c ->
  expires_at c = Some T -> T <= now -> 0 < window_minutes ->
  deps.rate_limit max_requests window_minutes request_ip redis_client now
  = (inr true,
     <["rate_limit:" +:+ request_ip :=
         {| value := 1; expires_at := Some (now + window_minutes * 60) |}]> redis_client).
Proof.
  intros Hc HT Hle Hpos. apply rate_limit_first; [|done].
  unfold redis_get, live. rewrite Hc. simpl. rewrite HT.
  by rewrite (proj2 (Z.ltb_ge _ _)) by lia.
Qed.

Lemma rate_limit_frame max_requests window_minutes request_ip redis_client now k :
  k <> "rate_limit:" +:+ request_ip ->
  snd (deps.rate_limit max_requests window_minutes request_ip redis_client now) !! k
  = redis_client !! k.
Proof.
  intros Hk. unfold deps.rate_limit, redis_setex, redis_incr.
  repeat case_match; simplify_eq/=; by rewrite ?lookup_insert_ne by done.
Qed.

Lemma rate_limit_outcome_local max_requests window_minutes request_ip r1 r2 now :
  r1 !! ("rate_limit:" +:+ request_ip) = r2 !! ("rate_limit:" +:+ request_ip) ->
  fst (deps.rate_limit max_requests window_minutes request_ip r1 now)
  = fst (deps.rate_limit max_requests window_minutes request_ip r2 now).
Proof.
  intros Heq. unfold deps.rate_limit, redis_get, redis_setex. rewrite Heq.
  destruct (r2 !! ("rate_limit:" +:+ request_ip)) as [c|]; simpl.
  - destruct (live now c); simpl.
    + by destruct (max_requests <=? value c).
    + by destruct (window_minutes * 60 <=? 0).
  - by destruct (window_minutes * 60 <=? 0).
Qed.

(** The limiter counts per address: a request from one address leaves the
    counter of every other address, and what the limiter answers it, as they
    were. *)
Theorem rate_limit_counts_per_address
    (max_requests window_minutes max_requests' window_minutes' : Z)
    (request_ip other_ip : string) (redis_client : gmap string Counter) (now now' : Z) :
  request_ip <> other_ip ->
  let after := snd (deps.rate_limit max_requests window_minutes request_ip redis_client now) in
  after !! ("rate_limit:" +:+ other_ip) = redis_client !! ("rate_limit:" +:+ other_ip)
  /\ fst (deps.rate_limit max_requests' window_minutes' other_ip after now')
     = fst (deps.rate_limit max_requests' window_minutes' other_ip redis_client now').
Proof.
  intros Hne. cbv zeta.
  assert ("rate_limit:" +:+ other_ip <> "rate_limit:" +:+ request_ip) as Hkey.
  { intros Heq. apply Hne. symmetry. by eapply (inj (String.append "rate_limit:")). }
  pose proof (rate_limit_frame max_requests window_minutes request_ip redis_client now _ Hkey)
    as Hframe.
  split; [done|]. by apply rate_limit_outcome_local.
Qed.

End Rate_limit_window.

(** ** The authentication resolver and the database *)

Section Authentication_effects.
Context `{Builtins} `{Libraries}.
Variable settings : Settings.

(** The resolver queries the users at most once, and only for a token that
    decoded to a subject [int] can read; a subject it cannot read ends the
    request with the uncaught [ValueError], not with 401, before any query.
    The tiers above add no effect of their own. *)
Theorem CurrentUser_queries_only_for_a_numeric_subject (db : Session) (credentials : string) :
  let decoded := jwt_decode credentials (SECRET_KEY settings) ["HS256"] in
  let log := fst (deps.CurrentUser settings db credentials) in
  (forall i, UserQueried i ∈ log <->
     exists payload user_id,
       decoded = Some payload /\ payload !! "sub" = Some user_id
       /\ int_of_str user_id = Some i)
  /\ (log = [Decoded credentials] \/ exists i, log = [Decoded credentials; UserQueried i])
  /\ (forall payload user_id,
        decoded = Some payload -> payload !! "sub" = Some user_id ->
        int_of_str user_id = None ->
        deps.CurrentUser settings db credentials = ([Decoded credentials], inl IntValueError))
  /\ fst (deps.AdminUser settings db credentials) = log
  /\ fst (deps.ActiveUser settings db credentials) = log.
Proof.
  cbv zeta. unfold deps.AdminUser, deps.ActiveUser, deps.Depends, deps.CurrentUser,
    deps.get_current_user. simpl.
  destruct (jwt_decode credentials (SECRET_KEY settings) ["HS256"]) as [payload|] eqn:Hd.
  2:{ repeat split; try (by left); try done.
      - intros [[=]|[]%elem_of_nil]%elem_of_cons.
      - by intros (? & ? & [=] & _). }
  destruct (payload !! "sub") as [user_id|] eqn:Hs.
  2:{ repeat split; try (by left); try done.
      - intros [[=]|[]%elem_of_nil]%elem_of_cons.
      - intros (? & ? & [= <-] & Hsub & _). congruence.
      - intros ? ? [= <-]. congruence. }
  destruct (int_of_str user_id) as [i|] eqn:Hi.
  - repeat split; try (right; eauto; fail); try done.
    + intros [[=]|[[= ->]|[]%elem_of_nil]%elem_of_cons]%elem_of_cons. eauto.
    + intros (? & ? & [= <-] & Hsub & Hint). rewrite Hs in Hsub. injection Hsub as <-.
      rewrite Hi in Hint. injection Hint as <-.
      apply list_elem_of_further, list_elem_of_here.
    + intros ? ? [= <-] Hsub Hint. rewrite Hs in Hsub. injection Hsub as <-. congruence.
  - repeat split; try (by left); try done.
    + intros [[=]|[]%elem_of_nil]%elem_of_cons.
    + intros (? & ? & [= <-] & Hsub & Hint). rewrite Hs in Hsub. injection Hsub as <-.
      congruence.
Qed.

Variable owner_id : Product -> option (option Z).

(** A product is handed out only to an active user who is an admin or its
    owner.  An admin gets it without the owner being read; for anybody else
    the owner is read, and a row without that attribute ends the request with
    an [AttributeError], a product of somebody else with 403.  For an active
    user a missing product is answered 404 whoever asks; without an active
    user the failure of the authentication tier is the answer, whatever the
    product. *)
Theorem ProductOwnership_grants_admin_or_owner
    (db : Session) (credentials : string) (product_id : Z) :
  let found :=
    query_first (fun p => bool_decide (models.product.id p = Some product_id)) (products db) in
  let active := snd (deps.ActiveUser settings db credentials) in
  let answer := snd (deps.ProductOwnership settings owner_id db credentials product_id) in
  (forall product,
     answer = inr product <->
     exists u, active = inr u
               /\ found = Some product
               /\ (models.user.is_admin u = true
                   \/ owner_id product = Some (Some (models.user.id u))))
  /\ (forall u, active = inr u -> found = None ->
        exists e, answer = inl (deps.Raise (HTTPError e)) /\ status_code e = 404)
  /\ (forall u product owner,
        active = inr u -> found = Some product ->
        models.user.is_admin u = false ->
        owner_id product = Some owner -> owner <> Some (models.user.id u) ->
        exists e, answer = inl (deps.Raise (HTTPError e)) /\ status_code e = 403)
  /\ (forall u product,
        active = inr u -> found = Some product ->
        models.user.is_admin u = false -> owner_id product = None ->
        answer = inl (deps.AttributeError "owner_id"))
  /\ (forall exc, active = inl exc -> answer = inl (deps.Raise exc)).
Proof.
  cbv zeta. unfold deps.ProductOwnership. cbn [snd].
  set (active := deps.ActiveUser settings db credentials).
  destruct (snd active) as [exc|u] eqn:Hu.
  { repeat apply conj; try done.
    - intros product. split; [done|]. by intros (u & [=] & _).
    - by intros ? [= <-]. }
  unfold deps.validate_product_ownership.
  destruct (query_first _ (products db)) as [row|] eqn:Hrow.
  - repeat apply conj; try done.
    + intros product. split.
      * destruct (models.user.is_admin u) eqn:Hadm; simpl.
        { intros [= <-]. exists u. eauto. }
        destruct (owner_id row) as [owner|] eqn:Hown; [|done].
        case_bool_decide as Hid; simpl; [|done].
        intros [= <-]. exists u. subst owner. eauto.
      * intros (u' & [= <-] & [= <-] & [Hadm|Hown]).
        { by rewrite Hadm. }
        rewrite Hown. rewrite (bool_decide_eq_true_2 _ eq_refl). simpl.
        by destruct (models.user.is_admin u).
    + intros u' product owner [= <-] [= <-] Hadm Hown Hid. rewrite Hadm, Hown.
      rewrite (bool_decide_eq_false_2 _ Hid). simpl. eauto.
    + intros u' product [= <-] [= <-] Hadm Hown. by rewrite Hadm, Hown.
  - repeat apply conj; try done.
    + intros product. split; [done|]. by intros (u' & _ & [=] & _).
    + intros u' _ _. eauto.
Qed.

End Authentication_effects.

(** ** The cache key *)

#[global] Instance key_le_trans : Transitive key_le.
Proof. intros a b c. unfold key_le. apply transitivity. Qed.

#[global] Instance key_le_total : Total key_le.
Proof. intros a b. unfold key_le. apply total, _. Qed.

Section Cache_key.
Implicit Types params : list (string * option string).

Lemma rendered_cons_Some k v params :
  rendered ((k, Some v) :: params) = (k +:+ ":" +:+ v) :: rendered params.
Proof. reflexivity. Qed.

Lemma rendered_cons_None k params : rendered ((k, None) :: params) = rendered params.
Proof. reflexivity. Qed.

Lemma get_cache_key_loop params parts :
  foldl (fun parts '(key, value) =>
           match value with
           | Some v => parts ++ [key +:+ ":" +:+ v]
           | None => parts
           end) parts params
  = parts ++ rendered params.
Proof.
  revert parts. induction params as [|[k [v|]] params IH]; intros parts.
  - by rewrite app_nil_r.
  - rewrite rendered_cons_Some. cbn [foldl]. rewrite IH. by rewrite <- app_assoc.
  - rewrite rendered_cons_None. cbn [foldl]. by rewrite IH.
Qed.

Lemma rendered_filter params :
  rendered (filter (fun kv => is_Some kv.2) params) = rendered params.
Proof.
  induction params as [|[k [v|]] params IH]; [done| |].
  - rewrite filter_cons_True by (simpl; eauto).
    by rewrite !rendered_cons_Some, IH.
  - rewrite filter_cons_False by (simpl; by intros [? [=]]).
    by rewrite rendered_cons_None.
Qed.

Lemma StronglySorted_filter {A} (R : relation A) (P : A -> Prop) `{forall x, Decision (P x)} l :
  StronglySorted R l -> StronglySorted R (filter P l).
Proof.
  induction 1 as [|x l Hl IH Hx]; [constructor|].
  destruct (decide (P x)).
  - rewrite filter_cons_True by done. constructor; [done|].
    rewrite Forall_forall in Hx. apply Forall_forall.
    intros y [_ Hy]%list_elem_of_filter. by apply Hx.
  - by rewrite filter_cons_False.
Qed.

Lemma same_key_same_parameter params kv1 kv2 :
  NoDup params.*1 -> kv1 ∈ params -> kv2 ∈ params -> kv1.1 = kv2.1 -> kv1 = kv2.
Proof.
  induction params as [|kv params IH]; [by intros _ []%elem_of_nil|].
  rewrite fmap_cons. intros [Hkv Hnd]%NoDup_cons.
  intros [->|H1]%elem_of_cons [->|H2]%elem_of_cons Heq; [done| | |by apply IH].
  - destruct Hkv. rewrite Heq. apply list_elem_of_fmap. eauto.
  - destruct Hkv. rewrite <- Heq. apply list_elem_of_fmap. eauto.
Qed.

(** The key depends on the parameters that carry a value, not on the order
    in which they were passed nor on those that are [None]. *)
Theorem get_cache_key_ignores_order_and_None
    (endpoint : string) (user_id : option Z) params params' :
  NoDup params.*1 -> NoDup params'.*1 ->
  filter (fun kv => is_Some kv.2) params ≡ₚ filter (fun kv => is_Some kv.2) params' ->
  deps.get_cache_key endpoint user_id params = deps.get_cache_key endpoint user_id params'.
Proof.
  intros Hnd Hnd' Hperm. unfold deps.get_cache_key. rewrite !get_cache_key_loop.
  do 2 f_equal.
  rewrite <- (rendered_filter (merge_sort key_le params)),
          <- (rendered_filter (merge_sort key_le params')).
  f_equal.
  assert (filter (fun kv => is_Some kv.2) (merge_sort key_le params)
          ≡ₚ filter (fun kv => is_Some kv.2) (merge_sort key_le params')) as Hperm'.
  { by rewrite !merge_sort_Permutation. }
  apply (StronglySorted_unique_strong key_le); [| | |done].
  - intros kv1 kv2 [_ H1]%list_elem_of_filter H2 Hle1 Hle2.
    rewrite <- Hperm' in H2. apply list_elem_of_filter in H2 as [_ H2].
    rewrite merge_sort_Permutation in H1, H2.
    apply (same_key_same_parameter params); [done..|].
    unfold key_le in *. by apply (anti_symm String.le).
  - apply StronglySorted_filter, StronglySorted_merge_sort; apply _.
  - apply StronglySorted_filter, StronglySorted_merge_sort; apply _.
Qed.

End Cache_key.

(** ** The patterns of the schema *)

Lemma before_dollar_plain b :
  Forall (fun c => c <> 10%N) b -> before_dollar b = b.
Proof.
  intros Hb. unfold before_dollar. destruct (last b) as [c|] eqn:Hl; [|done].
  apply last_Some in Hl as [b' ->]. apply Forall_app in Hb as [_ Hc].
  rewrite Forall_singleton in Hc. repeat case_match; simplify_eq; done.
Qed.

Lemma before_dollar_newline b : before_dollar (b ++ [10%N]) = b.
Proof. unfold before_dollar. by rewrite last_snoc, removelast_last. Qed.

Lemma before_dollar_cases v :
  v = before_dollar v \/ v = before_dollar v ++ [10%N].
Proof.
  unfold before_dollar. destruct (last v) as [c|] eqn:Hl; [|by left].
  apply last_Some in Hl as [b ->].
  destruct (decide (c = 10%N)) as [->|Hc].
  - right. by rewrite removelast_last.
  - left. repeat case_match; simplify_eq; done.
Qed.

(** The SKU pattern ends in [$], which also matches before a final newline:
    a SKU is accepted exactly when it is 5 to 20 characters of [[A-Z0-9-]],
    or such a text followed by one newline.  An accepted SKU can therefore
    have 21 characters, one more than the column declares. *)
Theorem sku_field_accepts_a_trailing_newline (v : str) :
  (sku_field v = inr v <->
   exists b, (v = b \/ v = b ++ [10%N])
             /\ 5 <= len b <= 20 /\ Forall (fun c => sku_char c = true) b)
  /\ (forall v', sku_field v = inr v' -> v' = v /\ 5 <= len v <= 21)
  /\ (sku_field v = inr v -> last v <> Some 10%N -> sku_field (v ++ [10%N]) = inr (v ++ [10%N])).
Proof.
  assert (forall b, Forall (fun c => sku_char c = true) b -> Forall (fun c => c <> 10%N) b)
    as Hclass.
  { intros b Hb. eapply Forall_impl; [exact Hb|]. by intros c Hc ->. }
  assert (forall u, sku_regex u = true <->
            5 <= len (before_dollar u) <= 20
            /\ Forall (fun c => sku_char c = true) (before_dollar u)) as Hregex.
  { intros u. unfold sku_regex. cbv zeta. rewrite !andb_true_iff, !Z.leb_le.
    rewrite forallb_forall, Forall_forall. unfold sku_char.
    split; intros [Hlen Hall]; (split; [lia|]); intros c Hc; apply Hall;
      by apply list_elem_of_In. }
  assert (sku_field v = inr v <->
          exists b, (v = b \/ v = b ++ [10%N])
                    /\ 5 <= len b <= 20 /\ Forall (fun c => sku_char c = true) b) as Hiff.
  { unfold sku_field. split.
    - destruct (sku_regex v) eqn:Hr; [|done]. intros _.
      apply Hregex in Hr as [Hlen Hall]. exists (before_dollar v).
      split; [apply before_dollar_cases|done].
    - intros (b & Hv & Hlen & Hall).
      assert (sku_regex v = true) as ->; [|done]. apply Hregex.
      destruct Hv as [-> | ->].
      + by rewrite before_dollar_plain by auto.
      + by rewrite before_dollar_newline. }
  split; [done|]. split.
  - intros v' Hv. pose proof Hv as ->%sku_field_inr. split; [done|].
    apply Hiff in Hv as (b & Hv & Hlen & _).
    destruct Hv as [-> | ->]; [lia|]. unfold len in *. rewrite length_app. simpl. lia.
  - intros (b & Hv & Hlen & Hall)%Hiff Hlast. unfold sku_field.
    assert (sku_regex (v ++ [10%N]) = true) as ->; [|done].
    apply Hregex. rewrite before_dollar_newline.
    destruct Hv as [-> | ->]; [done|]. by rewrite last_snoc in Hlast.
Qed.

(** The currency is checked twice, by the pattern and by the set, and the set
    decides: a currency is accepted exactly when it is one of the seven
    codes, so the newline the pattern lets through is refused. *)
Theorem currency_field_accepts_the_seven_codes (v v' : str) :
  currency_field v = inr v' <-> v ∈ valid_currencies /\ v' = v.
Proof.
  unfold currency_field. rewrite then_validator_inr. unfold validate_currency_code. split.
  - intros (a & Ha & Hv). case_bool_decide as Hin; [|done]. injection Hv as <-.
    destruct (currency_regex v); [|done]. by injection Ha as <-.
  - intros [Hin ->]. exists v. rewrite bool_decide_eq_true_2 by done. split; [|done].
    assert (currency_regex v = true) as ->; [|done].
    unfold valid_currencies in Hin.
    repeat (apply elem_of_cons in Hin as [->|Hin]; [reflexivity|]).
    by apply elem_of_nil in Hin.
Qed.

(** * The model at work *)

Example widget_body_is_accepted :
  @validate_ProductCreate ascii_builtins simple_libraries widget_body = inr widget.
Proof. vm_compute. reflexivity. Qed.


Lemma C2_four_requests :
  unique_products empty_db
  /\ unique_products
       (snd (@serve ascii_builtins simple_libraries postgresql empty_db
               [(100, widget_body); (160, widget_body); (220, mug_body); (280, lamp_body)])).
Proof.
  assert (unique_products empty_db) as Hempty.
  { split; apply NoDup_nil_2. }
  split; [exact Hempty|].
  exact (@C2_sku_and_name_stay_unique ascii_builtins simple_libraries postgresql empty_db _ Hempty).
Defined.

Example four_requests_store_two :
  (fun '(rs, db) => (status <$> rs, length (products db)))
    (@serve ascii_builtins simple_libraries postgresql empty_db
       [(100, widget_body); (160, widget_body); (220, mug_body); (280, lamp_body)])
  = ([201; 422; 201; 422], 2%nat).
Proof. vm_compute. reflexivity. Qed.

Lemma C3_three_requests_in_a_minute :
  exists r1 r2 e,
    deps.rate_limit 2 1 "203.0.113.7" ∅ 0 = (inr true, r1)
    /\ deps.rate_limit 2 1 "203.0.113.7" r1 20 = (inr true, r2)
    /\ deps.rate_limit 2 1 "203.0.113.7" r2 59 = (inl (HTTPError e), r2)
    /\ status_code e = 429.
Proof.
  apply (proj2 (proj2 (proj2 (C3_rate_limit_is_fixed_window 2 1 "203.0.113.7" ∅ 0))) 20 59);
    [reflexivity | lia | lia | lia].
Defined.


Lemma C5_lamp_is_refused :
  in_stock lamp_body = false
  /\ Decimal_gt (amount (price lamp_body)) 1000 = true
  /\ exists errors,
       @validate_ProductCreate ascii_builtins simple_libraries lamp_body = inl errors
       /\ (["__root__"], stock_price_error) ∈ errors
       /\ forall db now,
            @POST_products ascii_builtins simple_libraries postgresql db now lamp_body
            = (RequestValidationError errors, db).
Proof.
  split; [reflexivity|]. split; [reflexivity|].
  destruct (proj1 (@C5_out_of_stock_price_rule ascii_builtins simple_libraries postgresql lamp_body
                     eq_refl) eq_refl) as (errors & Hv & _ & Hpost & Hin).
  exists errors. split; [exact Hv|]. split; [|exact Hpost].
  apply (Hin (usd 150000)). reflexivity.
Defined.

Lemma C6_crate_is_refused :
  dimensions crate_body = Some {| width := 100; height := 100; depth := 100 |}
  /\ images crate_body = None
  /\ exists errors,
       @validate_ProductCreate ascii_builtins simple_libraries crate_body = inl errors
       /\ errors <> []
       /\ forall db now,
            @POST_products ascii_builtins simple_libraries postgresql db now crate_body
            = (RequestValidationError errors, db).
Proof.
  split; [reflexivity|]. split; [reflexivity|].
  apply (proj1 (@C6_large_product_rule ascii_builtins simple_libraries postgresql
                  crate_body _ eq_refl));
    [reflexivity|by left].
Defined.

(** A large product whose only image fails its own validation: the image
    field is then missing from [values], and the rule raises although the
    body holds an image. *)
Lemma C6_counterexample_image_that_fails :
  dimensions crate_with_bad_image = Some {| width := 100; height := 100; depth := 100 |}
  /\ images crate_with_bad_image
     = Some [ {| url := lit "http://example.com/crate.png"; alt_text := [] |} ]
  /\ validate_business_rules
       (@ProductCreate_values ascii_builtins simple_libraries crate_with_bad_image)
     = Some large_product_error
  /\ @validate_ProductCreate ascii_builtins simple_libraries crate_with_bad_image
     = inl [ (["images"; "0"; "alt_text"], Constraint "min_length");
             (["__root__"], large_product_error) ].
Proof. repeat split; vm_compute; reflexivity. Qed.

Lemma C7_duplicate_tags_are_refused :
  exists errors,
    @validate_ProductCreate ascii_builtins simple_libraries twice_tagged_body = inl errors
    /\ errors <> [].
Proof.
  apply (proj2 (proj2 (proj2 (@C7_tag_validation ascii_builtins simple_libraries
                                twice_tagged_body)))).
  left. intros Hnodup. vm_compute in Hnodup.
  apply NoDup_cons in Hnodup as [Hin _]. apply Hin. by apply list_elem_of_singleton.
Defined.



Lemma C10_generic_name_is_refused :
  (exists errors,
     @validate_ProductCreate ascii_builtins simple_libraries item_body = inl errors
     /\ errors <> [])
  /\ name widget = @str_title ascii_builtins (@str_strip ascii_builtins (name widget_body)).
Proof.
  split.
  - apply (proj1 (@C10_name_is_normalised_first ascii_builtins simple_libraries postgresql
                    item_body)).
    vm_compute. do 2 apply list_elem_of_further. apply list_elem_of_here.
  - apply (proj1 (proj2 (@C10_name_is_normalised_first ascii_builtins simple_libraries postgresql
                           widget_body))).
    vm_compute. reflexivity.
Defined.

(** The name is measured before it is stripped: a body whose name keeps fewer
    than 3 characters is accepted and stored, and the response that cannot be
    built for it is answered 500. *)
Example short_name_is_stored_and_answered_500 :
  exists p row,
    @validate_ProductCreate ascii_builtins simple_libraries short_name_body = inr p
    /\ name p = lit "A"
    /\ @POST_products ascii_builtins simple_libraries postgresql empty_db 100 short_name_body
       = (Failed {| status_code := 500; detail := Text "Error interno del servidor";
                    headers := [] |},
          {| users := []; products := [row] |})
    /\ models.product.name row = lit "A".
Proof. eexists _, _. repeat split; vm_compute; reflexivity. Qed.

Lemma short_name_body_is_answered_500 :
  fst (@POST_products ascii_builtins simple_libraries postgresql empty_db 100
         short_name_body)
  = Failed {| status_code := 500; detail := Text "Error interno del servidor";
              headers := [] |}
  /\ exists row,
       snd (@POST_products ascii_builtins simple_libraries postgresql empty_db 100
              short_name_body)
       = {| users := []; products := [row] |}
       /\ models.product.sku row = lit "SHORT-001"
       /\ models.product.name row = lit "A".
Proof.
  destruct (@accepted_name_out_of_range_is_answered_500
              ascii_builtins simple_libraries postgresql empty_db 100 short_name_body
              short_name)
    as (H500 & Hstored & _).
  - vm_compute. reflexivity.
  - vm_compute. reflexivity.
  - vm_compute. intros [Hlo _]. by apply Hlo.
  - split; [exact H500|].
    assert (exists row,
              @refreshed postgresql (next_id (products empty_db)) 100
                (ProductService.db_product short_name) = Some row) as [row Hrow].
    { eexists. vm_compute. reflexivity. }
    exists row. exact (Hstored row Hrow).
Defined.

Lemma validate_after_creating_the_widget :
  @POST_products_validate ascii_builtins simple_libraries
    (snd (@POST_products ascii_builtins simple_libraries postgresql empty_db 100
            widget_body)) widget_body
  = (Validation
       {| valid := false;
          errors := Some (<["name" := "Ya existe un producto con este nombre"]>
                            (<["sku" := "SKU ya existe en el sistema"]> ∅));
          message := "Se encontraron errores" |},
     snd (@POST_products ascii_builtins simple_libraries postgresql empty_db 100
            widget_body)).
Proof.
  apply (@validate_after_create_reports_sku_and_name
           ascii_builtins simple_libraries postgresql empty_db 100 widget_body).
  vm_compute. discriminate.
Defined.

Lemma the_widget_is_found_by_its_id :
  exists product db',
    @POST_products ascii_builtins simple_libraries postgresql empty_db 100 widget_body
    = (Created product, db')
    /\ id product = 1
    /\ @GET_product simple_libraries db' 1 = Ok200 product.
Proof.
  eexists _, _. split; [vm_compute; reflexivity|]. split; [reflexivity|].
  match goal with
  | |- GET_product ?db' _ = Ok200 ?product =>
      apply (@created_product_is_found_by_its_id
               ascii_builtins simple_libraries postgresql empty_db db' 100 widget_body product)
  end.
  vm_compute. reflexivity.
Defined.

Lemma listing_one_of_two_products :
  exists listed,
    @GET_products simple_libraries two_products None (Some 1) = Ok200 listed
    /\ Z.of_nat (length listed) <= 1 <= 100
    /\ length listed = 1%nat.
Proof.
  eexists. split; [vm_compute; reflexivity|].
  match goal with
  | |- context [length ?l] =>
      destruct (@GET_products_is_bounded simple_libraries two_products None (Some 1) l)
        as (Hmax & _ & Hlen)
  end.
  - vm_compute. reflexivity.
  - split; [exact Hmax|]. rewrite Hlen. vm_compute. reflexivity.
Defined.

Lemma offset_25_is_on_page_3 :
  (pagination.skip (deps.validate_pagination 3 10) <= 25
   < pagination.skip (deps.validate_pagination 3 10)
     + pagination.limit (deps.validate_pagination 3 10))
  /\ forall page,
       pagination.skip (deps.validate_pagination page 10) <= 25
       < pagination.skip (deps.validate_pagination page 10)
         + pagination.limit (deps.validate_pagination page 10) ->
       page = 3.
Proof.
  destruct (pages_partition_the_offsets 10 25 ltac:(lia) ltac:(lia))
    as (_ & _ & _ & Hwindow & Hunique).
  split; [exact Hwindow|exact Hunique].
Defined.

Lemma a_short_name_breaks_the_listing :
  (exists errors,
     @GET_products simple_libraries one_short_name (Some 0) (Some 10)
     = Unhandled (ValidationError errors))
  /\ exists errors,
       @GET_product simple_libraries one_short_name 1 = Unhandled (ValidationError errors).
Proof.
  assert (exists row, products one_short_name !! 0%nat = Some row
                      /\ ~ 3 <= len (models.product.name row) <= 100
                      /\ query_first (fun p => bool_decide (models.product.id p = Some 1))
                           (products one_short_name) = Some row) as (row & Hrow & Hlen & Hq).
  { eexists. split; [vm_compute; reflexivity|]. split; [|vm_compute; reflexivity].
    vm_compute. intros [Hlo _]. by apply Hlo. }
  destruct (@product_with_name_out_of_range_breaks_reading simple_libraries
              one_short_name 0 row 0 10 Hrow Hlen) as [Hlist Hget]; [lia..|].
  split; [exact Hlist|]. exact (Hget 1 Hq).
Defined.

Lemma two_stored_products_keep_the_rules :
  Forall row_keeps_rules (products empty_db)
  /\ Forall row_keeps_rules
       (products (snd (@serve ascii_builtins simple_libraries postgresql empty_db
                         [(100, widget_body); (220, mug_body)]))).
Proof.
  assert (Forall row_keeps_rules (products empty_db)) as Hempty by constructor.
  split; [exact Hempty|].
  exact (@stored_rows_keep_the_schema_rules ascii_builtins simple_libraries postgresql
           empty_db _ Hempty).
Defined.

Lemma five_requests_with_a_maximum_of_three :
  fst (rate_limit_run 3 1 "203.0.113.7" ∅ [0; 10; 20; 30; 40])
  = [inr true; inr true; inr true;
     inl (HTTPError (too_many_requests 3 1)); inl (HTTPError (too_many_requests 3 1))].
Proof.
  apply (rate_limit_allows_max_requests_per_window 3 1 "203.0.113.7" ∅ 0 [10; 20; 30; 40]).
  - reflexivity.
  - lia.
  - repeat (constructor; [lia|]). constructor.
Defined.

Lemma an_expired_counter_of_five_starts_again :
  deps.rate_limit 2 1 "203.0.113.7"
    {[ "rate_limit:203.0.113.7" := {| value := 5; expires_at := Some 60 |} ]} 60
  = (inr true,
     <["rate_limit:203.0.113.7" := {| value := 1; expires_at := Some 120 |}]>
       {[ "rate_limit:203.0.113.7" := {| value := 5; expires_at := Some 60 |} ]}).
Proof.
  apply (rate_limit_starts_again_after_expiry 2 1 "203.0.113.7" _ 60
           {| value := 5; expires_at := Some 60 |} 60); [reflexivity | reflexivity | lia | lia].
Defined.

Lemma two_addresses_do_not_share_a_counter :
  snd (deps.rate_limit 1 1 "203.0.113.7" ∅ 0) !! "rate_limit:198.51.100.2"
  = (∅ : gmap string Counter) !! "rate_limit:198.51.100.2"
  /\ fst (deps.rate_limit 1 1 "198.51.100.2" (snd (deps.rate_limit 1 1 "203.0.113.7" ∅ 0)) 5)
     = fst (deps.rate_limit 1 1 "198.51.100.2" ∅ 5).
Proof.
  apply (rate_limit_counts_per_address 1 1 1 1 "203.0.113.7" "198.51.100.2" ∅ 0 5).
  discriminate.
Defined.

Lemma a_cache_key_in_two_orders :
  deps.get_cache_key "products" (Some 7)
    [("size", Some "10"); ("page", Some "2"); ("q", None)]
  = deps.get_cache_key "products" (Some 7) [("page", Some "2"); ("size", Some "10")].
Proof.
  apply get_cache_key_ignores_order_and_None.
  - apply (bool_decide_unpack _). vm_compute. exact I.
  - apply (bool_decide_unpack _). vm_compute. exact I.
  - vm_compute. apply perm_swap.
Defined.

Example a_cache_key :
  deps.get_cache_key "products" (Some 7)
    [("size", Some "10"); ("page", Some "2"); ("q", None)]
  = "products:user:7:page:2:size:10".
Proof. vm_compute. reflexivity. Qed.

